(** * CwaWeather-backend: a shallow embedding of [server.js]

    The server is an Express application that proxies the CWA open-data
    forecast F-C0032-001 for a fixed list of cities.  This development
    embeds the functions of [server.js] as Rocq definitions and proves the
    properties the specification states about them.

    Conventions of the embedding.
    - A JavaScript string is a [string]; non-ASCII text is held as its UTF-8
      bytes.  UTF-8 is self-synchronising, so searching or replacing a
      well-formed needle in well-formed text agrees with the same operation
      on UTF-16 code units.
    - An [async] function is a computation in [Io]: it records the effects it
      performs (outbound HTTP calls, console output) in order and completes
      normally or by throwing.
    - [process.env], the upstream service and the clock form the explicit
      environment [Env].
    - What Express and its library middlewares decide (path matching, CORS,
      body parsing) is not part of [server.js]; it enters as the variables of
      the section [Express].
    - The texts of the replies are those of [server.js]; the specification
      quotes them in English ("伺服器設定錯誤" is its "server configuration
      error", "CWA API 錯誤" its "upstream API error", "伺服器錯誤" its
      "server error", "找不到此路徑" its "not found"). *)

From Stdlib Require Import ZArith Ascii Floats Lia.
From stdpp Require Import base option list strings gmap.

Open Scope Z_scope.

(** ** JavaScript strings *)

Module Js.

(** [s.startsWith(p)] *)
Fixpoint startsWith (p s : string) : bool :=
  match p, s with
  | "", _ => true
  | String a p', String b s' => if Ascii.eqb a b then startsWith p' s' else false
  | String _ _, "" => false
  end.

(** [s.includes(needle)] *)
Fixpoint includes (needle s : string) : bool :=
  startsWith needle s ||
  match s with
  | "" => false
  | String _ s' => includes needle s'
  end.

Fixpoint drop (n : nat) (s : string) : string :=
  match n, s with
  | O, _ => s
  | S n', String _ s' => drop n' s'
  | S _, "" => ""
  end.

(** [s.replace(pattern, replacement)] with a string pattern: only the first
    occurrence is replaced.  The replacements used by [server.js] contain no
    [$], so no replacement pattern is expanded. *)
Fixpoint replace (pattern replacement s : string) : string :=
  if startsWith pattern s then replacement +:+ drop (String.length pattern) s
  else match s with
       | "" => ""
       | String c s' => String c (replace pattern replacement s')
       end.

Definition lower_ascii (c : ascii) : ascii :=
  let n := Ascii.N_of_ascii c in
  if ((65 <=? n) && (n <=? 90))%N then Ascii.ascii_of_N (n + 32) else c.

(** [s.toLowerCase()] on the ASCII letters.  Bytes above 127 are parts of
    the UTF-8 encoding of non-ASCII characters and are left alone: CJK
    ideographs, the only non-ASCII characters of the configured names, have
    no case mapping.  The definition is that of ECMA-262 on text of ASCII
    characters and CJK ideographs only ([plain_text] below); a cased letter
    outside ASCII is lower-cased by JavaScript and not here. *)
Fixpoint toLowerCase (s : string) : string :=
  match s with
  | "" => ""
  | String c s' => String (lower_ascii c) (toLowerCase s')
  end.

End Js.

(** ** JSON values, as [JSON.parse] and axios deliver them *)

#[warnings="-register-all"]
Inductive json : Type :=
| JNull
| JBool (b : bool)
| JNum (x : float)
| JStr (s : string)
| JArr (items : list json)
| JObj (fields : list (string * json)).

(** A JavaScript value read from a property: [None] is [undefined]. *)
Definition jsval : Type := option json.

(** The own property [k] of a parsed object, whose keys are distinct. *)
Fixpoint assoc (k : string) (fields : list (string * json)) : jsval :=
  match fields with
  | [] => None
  | (k', v) :: rest => if String.eqb k k' then Some v else assoc k rest
  end.

(** ToBoolean *)
Definition truthy (v : jsval) : bool :=
  match v with
  | None => false
  | Some JNull => false
  | Some (JBool b) => b
  | Some (JNum x) => negb (PrimFloat.eqb x 0 || PrimFloat.is_nan x)
  | Some (JStr s) => negb (String.eqb s "")
  | Some (JArr _) => true
  | Some (JObj _) => true
  end.

(** [a || b] where [b] is a string literal. *)
Definition or_else (a : jsval) (b : string) : json :=
  match a with
  | Some v => if truthy a then v else JStr b
  | None => JStr b
  end.

(** ** Errors and completions *)

(** [error.response] of an axios error. *)
Record ErrorResponse := { status : Z; data : json }.

(** A thrown value.  The handler looks at two properties only: [message] and
    [response]. *)
Record JsError := { message : string; response : option ErrorResponse }.

(** [new Error(msg)]: no [response] property. *)
Definition Error (msg : string) : JsError := {| message := msg; response := None |}.

(** The TypeError V8 raises for a property read on [undefined] or [null]. *)
Definition TypeError (base prop : string) : JsError :=
  Error ("Cannot read properties of " +:+ base +:+ " (reading '" +:+ prop +:+ "')").

Inductive completion (A : Type) : Type :=
| Normal (a : A)
| Throw (e : JsError).
Arguments Normal {A} a.
Arguments Throw {A} e.

Global Instance completion_ret : MRet completion := λ A a, Normal a.
Global Instance completion_bind : MBind completion := λ A B f m,
  match m with
  | Normal a => f a
  | Throw e => Throw e
  end.

Global Instance completion_fmap : FMap completion := λ A B f m,
  match m with
  | Normal a => Normal (f a)
  | Throw e => Throw e
  end.

(** [xs[i]], then a property read on the result: out of range gives
    [undefined], and reading [prop] from it throws. *)
Definition index {A} (xs : list A) (i : nat) (prop : string) : completion A :=
  match xs !! i with
  | Some x => Normal x
  | None => Throw (TypeError "undefined" prop)
  end.

(** ** The upstream payload (dataset F-C0032-001)

    The shape the dataset has, and the one the specification's data model
    gives it: every slot carries its times and a parameter, every element a
    name and its slots. *)

Module Cwa.
Record ParameterValue := { parameterName : string }.
Record TimeSlot := { startTime : string; endTime : string; parameter : ParameterValue }.
Record WeatherElement := { elementName : string; time : list TimeSlot }.
Record Location := { locationName : string; weatherElement : list WeatherElement }.
Record Records := {
  datasetDescription : string;
  issueTime : string;
  location : list Location
}.
(** [response.data] *)
Record Data := { records : Records }.
End Cwa.

(** ** The normalized output *)

Record Forecast := {
  startTime : string;
  endTime : string;
  weather : string;
  rain : string;
  minTemp : string;
  maxTemp : string;
  comfort : string;
  windSpeed : string
}.

Record WeatherData := {
  city : string;
  datasetDescription : string;
  dataUpdateTime : string;
  forecasts : list Forecast
}.

(** The [switch (element.elementName)] with its five cases; any other name
    (the dataset has no wind speed) leaves [forecast] as it is. *)
Definition switch_elementName (name : string) (value : Cwa.ParameterValue)
  (forecast : Forecast) : Forecast :=
  if String.eqb name "Wx" then
    {| startTime := startTime forecast; endTime := endTime forecast;
       weather := Cwa.parameterName value;
       rain := rain forecast; minTemp := minTemp forecast;
       maxTemp := maxTemp forecast; comfort := comfort forecast;
       windSpeed := windSpeed forecast |}
  else if String.eqb name "PoP" then
    {| startTime := startTime forecast; endTime := endTime forecast;
       weather := weather forecast;
       rain := Cwa.parameterName value +:+ "%";
       minTemp := minTemp forecast;
       maxTemp := maxTemp forecast; comfort := comfort forecast;
       windSpeed := windSpeed forecast |}
  else if String.eqb name "MinT" then
    {| startTime := startTime forecast; endTime := endTime forecast;
       weather := weather forecast; rain := rain forecast;
       minTemp := Cwa.parameterName value +:+ "°C";
       maxTemp := maxTemp forecast; comfort := comfort forecast;
       windSpeed := windSpeed forecast |}
  else if String.eqb name "MaxT" then
    {| startTime := startTime forecast; endTime := endTime forecast;
       weather := weather forecast; rain := rain forecast;
       minTemp := minTemp forecast;
       maxTemp := Cwa.parameterName value +:+ "°C";
       comfort := comfort forecast;
       windSpeed := windSpeed forecast |}
  else if String.eqb name "CI" then
    {| startTime := startTime forecast; endTime := endTime forecast;
       weather := weather forecast; rain := rain forecast;
       minTemp := minTemp forecast; maxTemp := maxTemp forecast;
       comfort := Cwa.parameterName value;
       windSpeed := windSpeed forecast |}
  else forecast.

(** The callback of [weatherElements.forEach] for one element:
    [element.time[i].parameter] is read before the [switch], whatever the
    element's name. *)
Definition assign_element (i : nat) (forecast : Forecast) (element : Cwa.WeatherElement)
  : completion Forecast :=
  slot ← index (Cwa.time element) i "parameter";
  let value := Cwa.parameter slot in
  mret (switch_elementName (Cwa.elementName element) value forecast).

(** [weatherElements.forEach(...)]: the elements in order, each mutating
    [forecast]; a throw inside the callback ends the iteration. *)
Fixpoint forEach_elements (i : nat) (elements : list Cwa.WeatherElement)
  (forecast : Forecast) : completion Forecast :=
  match elements with
  | [] => mret forecast
  | element :: rest =>
      forecast' ← assign_element i forecast element;
      forEach_elements i rest forecast'
  end.

(** The body of the [for] loop at index [i]: the record for one time slot. *)
Definition forecast_at (weatherElements : list Cwa.WeatherElement) (i : nat)
  : completion Forecast :=
  first ← index weatherElements 0 "time";
  slot ← index (Cwa.time first) i "startTime";
  forEach_elements i weatherElements
    {| startTime := Cwa.startTime slot;
       endTime := Cwa.endTime slot;
       weather := ""; rain := ""; minTemp := ""; maxTemp := "";
       comfort := ""; windSpeed := "" |}.

(** [for (let i = 0; i < timeCount; i++) { ...; forecasts.push(forecast) }],
    with [remaining = timeCount - i] iterations still to run. *)
Fixpoint for_slots (weatherElements : list Cwa.WeatherElement)
  (remaining i : nat) (forecasts : list Forecast) : completion (list Forecast) :=
  match remaining with
  | O => mret forecasts
  | S remaining' =>
      forecast ← forecast_at weatherElements i;
      for_slots weatherElements remaining' (S i) (forecasts ++ [forecast])
  end.

(** Lines 57-110 of [getWeatherByLocation]: the located block is reshaped
    into [weatherData].  No effect is performed here: the result is a plain
    completion. *)
Definition normalize (locationName : string) (recs : Cwa.Records)
  (locationData : Cwa.Location) : completion WeatherData :=
  let weatherElements := Cwa.weatherElement locationData in
  first ← index weatherElements 0 "time";
  let timeCount := length (Cwa.time first) in
  forecasts ← for_slots weatherElements timeCount 0 [];
  mret {| city := locationName;
          datasetDescription := Cwa.datasetDescription recs;
          dataUpdateTime := Cwa.issueTime recs;
          forecasts := forecasts |}.

(** ** [Date]: the time value of [new Date()] and [toISOString]

    The definitions follow ECMA-262 (Day Number and Time within Day, Year,
    Month and Date Number, Date.prototype.toISOString).  A time value is the
    number of milliseconds since the epoch, an integer of magnitude at most
    8.64e15. *)

Module JsDate.

Definition msPerDay : Z := 86400000.
Definition maxTime : Z := 8640000000000000.

Definition Day (t : Z) : Z := t / msPerDay.
Definition TimeWithinDay (t : Z) : Z := t mod msPerDay.

Definition DaysInYear (y : Z) : Z :=
  if negb (y mod 4 =? 0) then 365
  else if negb (y mod 100 =? 0) then 366
  else if negb (y mod 400 =? 0) then 365
  else 366.

Definition DayFromYear (y : Z) : Z :=
  365 * (y - 1970) + (y - 1969) / 4 - (y - 1901) / 100 + (y - 1601) / 400.

(** The year of a day number: an estimate from the mean year length,
    corrected by at most one.  [YearFromDay_spec] below shows it is the
    largest [y] with [DayFromYear y <= d], which is how ECMA-262 defines
    YearFromTime. *)
Definition YearFromDay (d : Z) : Z :=
  let y := 1970 + (400 * d) / 146097 in
  if d <? DayFromYear y then y - 1
  else if DayFromYear (y + 1) <=? d then y + 1
  else y.

Definition YearFromTime (t : Z) : Z := YearFromDay (Day t).
Definition InLeapYear (t : Z) : Z :=
  if DaysInYear (YearFromTime t) =? 366 then 1 else 0.
Definition DayWithinYear (t : Z) : Z := Day t - DayFromYear (YearFromTime t).

(** The first day within the year of month [m] (0 = January), given the
    leap-year flag. *)
Definition month_start (leap m : Z) : Z :=
  match m with
  | 0 => 0
  | 1 => 31
  | 2 => 59 + leap
  | 3 => 90 + leap
  | 4 => 120 + leap
  | 5 => 151 + leap
  | 6 => 181 + leap
  | 7 => 212 + leap
  | 8 => 243 + leap
  | 9 => 273 + leap
  | 10 => 304 + leap
  | 11 => 334 + leap
  | _ => 365 + leap
  end.

Definition month_of (leap dwy : Z) : Z :=
  if dwy <? 31 then 0
  else if dwy <? 59 + leap then 1
  else if dwy <? 90 + leap then 2
  else if dwy <? 120 + leap then 3
  else if dwy <? 151 + leap then 4
  else if dwy <? 181 + leap then 5
  else if dwy <? 212 + leap then 6
  else if dwy <? 243 + leap then 7
  else if dwy <? 273 + leap then 8
  else if dwy <? 304 + leap then 9
  else if dwy <? 334 + leap then 10
  else 11.

Definition MonthFromTime (t : Z) : Z := month_of (InLeapYear t) (DayWithinYear t).
Definition DateFromTime (t : Z) : Z :=
  DayWithinYear t - month_start (InLeapYear t) (MonthFromTime t) + 1.

Definition HourFromTime (t : Z) : Z := (t / 3600000) mod 24.
Definition MinFromTime (t : Z) : Z := (t / 60000) mod 60.
Definition SecFromTime (t : Z) : Z := (t / 1000) mod 60.
Definition msFromTime (t : Z) : Z := t mod 1000.

Definition digit (n : Z) : ascii := Ascii.ascii_of_N (48 + Z.to_N (n mod 10)).

(** [n] in decimal, padded with zeros to [width] digits. *)
Fixpoint padded (width : nat) (n : Z) (rest : string) : string :=
  match width with
  | O => rest
  | S w => padded w (n / 10) (String (digit n) rest)
  end.

Definition year_string (y : Z) (rest : string) : string :=
  if (0 <=? y) && (y <=? 9999) then padded 4 y rest
  else if y <? 0 then String "-" (padded 6 (- y) rest)
  else String "+" (padded 6 y rest).

(** The date-time text [YYYY-MM-DDTHH:mm:ss.sssZ] of the given fields, the
    year as a sign and six digits outside 0..9999. *)
Definition format (y mo d h mi sec ms : Z) : string :=
  year_string y
    (String "-" (padded 2 mo
    (String "-" (padded 2 d
    (String "T" (padded 2 h
    (String ":" (padded 2 mi
    (String ":" (padded 2 sec
    (String "." (padded 3 ms "Z")))))))))))).

(** [Date.prototype.toISOString] *)
Definition toISOString (t : Z) : string :=
  format (YearFromTime t) (MonthFromTime t + 1) (DateFromTime t)
         (HourFromTime t) (MinFromTime t) (SecFromTime t) (msFromTime t).

(** *** Reading the format back: [Date.parse] on the UTC date-time form *)

Definition digit_value (c : ascii) : option Z :=
  let n := Ascii.N_of_ascii c in
  if ((48 <=? n) && (n <=? 57))%N then Some (Z.of_N n - 48) else None.

(** [width] decimal digits at the head of [s]: their value (after the
    digits already read, [acc]) and the remaining text. *)
Fixpoint digits (width : nat) (acc : Z) (s : string) : option (Z * string) :=
  match width with
  | O => Some (acc, s)
  | S w =>
      match s with
      | "" => None
      | String c s' =>
          v ← digit_value c;
          digits w (10 * acc + v) s'
      end
  end.

Definition expect (c : ascii) (s : string) : option string :=
  match s with
  | String c' s' => if Ascii.eqb c c' then Some s' else None
  | "" => None
  end.

(** Four digits, or a sign and six digits; [-000000] is not a year. *)
Definition parse_year (s : string) : option (Z * string) :=
  match s with
  | "" => None
  | String c s' =>
      if Ascii.eqb c "+" then digits 6 0 s'
      else if Ascii.eqb c "-" then
        '(y, rest) ← digits 6 0 s';
        if y =? 0 then None else Some (- y, rest)
      else digits 4 0 s
  end.

Record Fields := {
  year : Z; month : Z; day : Z; hour : Z; minute : Z; second : Z; millisecond : Z
}.

(** The syntax of the format. *)
Definition read_fields (s : string) : option Fields :=
  '(y, s) ← parse_year s;
  s ← expect "-" s;
  '(mo, s) ← digits 2 0 s;
  s ← expect "-" s;
  '(d, s) ← digits 2 0 s;
  s ← expect "T" s;
  '(h, s) ← digits 2 0 s;
  s ← expect ":" s;
  '(mi, s) ← digits 2 0 s;
  s ← expect ":" s;
  '(sec, s) ← digits 2 0 s;
  s ← expect "." s;
  '(ms, s) ← digits 3 0 s;
  s ← expect "Z" s;
  if String.eqb s "" then
    Some {| year := y; month := mo; day := d; hour := h; minute := mi;
            second := sec; millisecond := ms |}
  else None.

(** The days of month [m] (0 = January) of year [y]. *)
Definition days_in_month (y m : Z) : Z :=
  let leap := if DaysInYear y =? 366 then 1 else 0 in
  month_start leap (m + 1) - month_start leap m.

(** MakeDay and MakeTime on fields already range-checked. *)
Definition MakeDay (y m d : Z) : Z :=
  DayFromYear y + month_start (if DaysInYear y =? 366 then 1 else 0) m + d - 1.
Definition MakeTime (h mi s ms : Z) : Z := h * 3600000 + mi * 60000 + s * 1000 + ms.

(** The fields must denote a date and a time of day, and the time value
    must be in range. *)
Definition time_value (f : Fields) : option Z :=
  if negb ((1 <=? month f) && (month f <=? 12)) then None
  else if negb ((1 <=? day f) && (day f <=? days_in_month (year f) (month f - 1)))
  then None
  else if negb ((hour f <=? 23) && (minute f <=? 59) && (second f <=? 59)) then None
  else
    let t := MakeDay (year f) (month f - 1) (day f) * msPerDay
             + MakeTime (hour f) (minute f) (second f) (millisecond f) in
    if (- maxTime <=? t) && (t <=? maxTime) then Some t else None.

Definition parse (s : string) : option Z :=
  f ← read_fields s; time_value f.

End JsDate.

(** ** Effects of a request *)

(** [axios.get(url, { params })] *)
Record HttpGet := { url : string; params : list (string * option string) }.

Inductive Event : Type :=
| EvHttpGet (call : HttpGet)
| EvConsoleError (args : list string)
| EvConsoleErrorStack (err : JsError).

(** What the process is started with and what it talks to:
    [process.env.CWA_API_KEY] ([None] when unset), the upstream service as
    axios presents it (a resolved [response.data] or a rejection), and the
    clock read by [new Date()]. *)
Record Env := {
  CWA_API_KEY : option string;
  upstream : HttpGet → completion Cwa.Data;
  now : Z
}.

(** ToBoolean of an environment variable: unset and empty are falsy. *)
Definition is_set (v : option string) : bool :=
  match v with
  | Some s => negb (String.eqb s "")
  | None => false
  end.

(** An effectful computation: the events performed, in order, and how it
    completed. *)
Record Io (A : Type) : Type := mkIo { trace : list Event; result : completion A }.
Arguments mkIo {A} trace result.
Arguments trace {A} _.
Arguments result {A} _.

Global Instance Io_ret : MRet Io := λ A a, mkIo [] (Normal a).
Global Instance Io_bind : MBind Io := λ A B f m,
  match result m with
  | Normal a => mkIo (trace m ++ trace (f a)) (result (f a))
  | Throw e => mkIo (trace m) (Throw e)
  end.

Definition throw {A} (e : JsError) : Io A := mkIo [] (Throw e).
Definition pure_step {A} (c : completion A) : Io A := mkIo [] c.

Definition axios_get (env : Env) (u : string) (ps : list (string * option string))
  : Io Cwa.Data :=
  let call := {| url := u; params := ps |} in
  mkIo [EvHttpGet call] (upstream env call).

Definition console_error (args : list string) : Io unit :=
  mkIo [EvConsoleError args] (Normal tt).

(** ** [getWeatherByLocation] *)

Definition CWA_API_BASE_URL : string := "https://opendata.cwa.gov.tw/api".

Definition TAIWAN_CITIES : list string :=
  ["新竹縣"; "桃園市"; "新竹市"; "苗栗縣"].

Definition getWeatherByLocation (env : Env) (locationName : string) : Io WeatherData :=
  if negb (is_set (CWA_API_KEY env)) then
    throw (Error "伺服器設定錯誤: 請在 .env 檔案中設定 CWA_API_KEY")
  else
    response ← axios_get env
      (CWA_API_BASE_URL +:+ "/v1/rest/datastore/F-C0032-001")
      [("Authorization", CWA_API_KEY env);
       ("locationName", Some locationName)];
    match List.find (λ loc, String.eqb (Cwa.locationName loc) locationName)
                    (Cwa.location (Cwa.records response)) with
    | None =>
        throw (Error ("查無資料: 無法取得 " +:+ locationName +:+ " 天氣資料"))
    | Some locationData =>
        pure_step (normalize locationName (Cwa.records response) locationData)
    end.

(** ** Responses *)

(** The argument of each [res.json(...)] call of [server.js]; [EmptyBody]
    is a response ended without a body, which only a library middleware
    writes. *)
Inductive Body : Type :=
| EmptyBody
| WeatherBody (success : bool) (data : WeatherData)
| ErrorBody (error : string) (message : string)
| UpstreamErrorBody (error : string) (message : json) (details : json)
| NotFoundBody (error : string)
| HealthBody (status : string) (timestamp : string)
| DiscoveryBody (message : string) (endpoints : gmap string string).

(** [res.status(code).json(body)]; the status is 200 when [res.status] is
    not called. *)
Record HttpResponse := { statusCode : Z; body : Body }.

(** ** [handleWeatherRequest] *)

(** [data.message] for a body [data]: a property read throws on [null];
    strings, numbers, booleans and arrays have no [message] property. *)
Definition get_message (data : json) : completion jsval :=
  match data with
  | JNull => Throw (TypeError "null" "message")
  | JObj fields => Normal (assoc "message" fields)
  | _ => Normal None
  end.

(** The three replies of the [catch] block. *)
Definition config_reply (error : JsError) : Io HttpResponse :=
  mret {| statusCode := 500;
          body := ErrorBody "伺服器設定錯誤" (message error) |}.

Definition upstream_reply (resp : ErrorResponse) : Io HttpResponse :=
  msg ← pure_step (get_message (data resp));
  mret {| statusCode := status resp;
          body := UpstreamErrorBody "CWA API 錯誤"
                    (or_else msg "無法取得天氣資料") (data resp) |}.

Definition generic_reply (locationName : string) : Io HttpResponse :=
  mret {| statusCode := 500;
          body := ErrorBody "伺服器錯誤"
                    ("無法取得 " +:+ locationName +:+ " 天氣資料，請稍後再試") |}.

(** The [catch] block: the error is logged, then classified by its message
    text and by the presence of [error.response]. *)
Definition on_error (locationName : string) (error : JsError) : Io HttpResponse :=
  _ ← console_error ["取得 " +:+ locationName +:+ " 天氣資料失敗:"; message error];
  if Js.includes "CWA_API_KEY" (message error) then config_reply error
  else
    match response error with
    | Some resp => upstream_reply resp
    | None => generic_reply locationName
    end.

(** [handleWeatherRequest(locationName)]: the handler's promise resolves
    once a response is written ([Normal]), or rejects ([Throw]) when the
    [catch] block itself throws. *)
Definition handleWeatherRequest (env : Env) (locationName : string) : Io HttpResponse :=
  let attempt := getWeatherByLocation env locationName in
  match result attempt with
  | Normal data =>
      mkIo (trace attempt)
           (Normal {| statusCode := 200; body := WeatherBody true data |})
  | Throw error =>
      let handled := on_error locationName error in
      mkIo (trace attempt ++ trace handled) (result handled)
  end.

(** ** Routes *)

Inductive Handler : Type :=
| RootHandler
| HealthHandler
| WeatherHandler (locationName : string).

(** [TAIWAN_CITIES.forEach(city => app.get(`/api/weather/${slug}`, ...))] *)
Definition weather_routes (cities : list string) : list (string * Handler) :=
  map (λ city,
         let slug := Js.toLowerCase
                       (Js.replace "市" "city" (Js.replace "縣" "county" city)) in
         ("/api/weather/" +:+ slug, WeatherHandler city))
      cities.

(** The [app.get] registrations, in source order. *)
Definition routes : list (string * Handler) :=
  [("/", RootHandler); ("/api/health", HealthHandler)]
    ++ weather_routes TAIWAN_CITIES.

(** The [endpoints] object built by the handler of [GET /]: a property
    write per city, a later write to the same key replacing the earlier. *)
Definition endpoints_of (cities : list string) : gmap string string :=
  foldl (λ endpoints city,
           let slug := Js.toLowerCase
                         (Js.replace "市" "city" (Js.replace "縣" "county" city)) in
           <[city := "/api/weather/" +:+ slug]> endpoints)
        {["health" := "/api/health"]}
        cities.

Definition root_handler : Io HttpResponse :=
  mret {| statusCode := 200;
          body := DiscoveryBody "歡迎使用 CWA 天氣預報 API"
                    (endpoints_of TAIWAN_CITIES) |}.

Definition health_handler (env : Env) : Io HttpResponse :=
  mret {| statusCode := 200;
          body := HealthBody "OK" (JsDate.toISOString (now env)) |}.

Definition run_handler (env : Env) (h : Handler) : Io HttpResponse :=
  match h with
  | RootHandler => root_handler
  | HealthHandler => health_handler env
  | WeatherHandler locationName => handleWeatherRequest env locationName
  end.

(** The error-handling middleware and the final 404 handler. *)
Definition error_middleware (err : JsError) : Io HttpResponse :=
  mkIo [EvConsoleErrorStack err]
       (Normal {| statusCode := 500;
                  body := ErrorBody "伺服器錯誤" (message err) |}).

Definition not_found_handler : Io HttpResponse :=
  mret {| statusCode := 404; body := NotFoundBody "找不到此路徑" |}.

(** ** The application *)

Inductive Method : Type := GET | HEAD | POST | PUT | DELETE | PATCH | OPTIONS.

Record Request := {
  method : Method;
  path : string;
  headers : list (string * string);
  payload : string
}.

(** What a library middleware does with a request: pass it on, pass an
    error on, or answer it itself. *)
Inductive Middleware : Type :=
| Next
| NextError (err : JsError)
| End (res : HttpResponse).

Section Express.

(** Express's test of a request path against the pattern a route was
    registered with. *)
Variable path_match : string → string → bool.

(** [cors()], [express.json()] and [express.urlencoded({extended: true})]. *)
Variables cors express_json express_urlencoded : Request → Middleware.

(** The three [app.use] middlewares, in order; the first that does not
    call [next()] decides. *)
Definition middlewares (req : Request) : Middleware :=
  match cors req with
  | Next =>
      match express_json req with
      | Next => express_urlencoded req
      | other => other
      end
  | other => other
  end.

(** A route registered with [app.get] serves GET, and HEAD in its place. *)
Definition serves (m : Method) : bool :=
  match m with
  | GET | HEAD => true
  | _ => false
  end.

(** The first registered route that takes the request. *)
Definition find_route (req : Request) : option Handler :=
  if serves (method req) then
    snd <$> List.find (λ r, path_match (fst r) (path req)) routes
  else None.

(** One request through the stack: middlewares, routes in registration
    order, then the error middleware for a forwarded error and the 404
    handler for a request nothing took. *)
Definition app (env : Env) (req : Request) : Io HttpResponse :=
  match middlewares req with
  | End res => mret res
  | NextError err => error_middleware err
  | Next =>
      match find_route req with
      | Some h => run_handler env h
      | None => not_found_handler
      end
  end.

End Express.

(** A stack whose middlewares let every request through and whose paths
    match exactly. *)
Definition pass : Request → Middleware := λ _, Next.
Definition plain_app : Env → Request → Io HttpResponse :=
  app String.eqb pass pass pass.

(** ** Reading the normalizer's result *)

(** The element that decides the field of kind [name]: the last element of
    that name, since [forEach] lets a later element overwrite an earlier
    one.  When every kind occurs once it is the element of that name. *)
Definition last_named (name : string) (elements : list Cwa.WeatherElement)
  : option Cwa.WeatherElement :=
  List.find (λ e, String.eqb (Cwa.elementName e) name) (rev elements).

(** [parameter] of slot [i], for an element that has one. *)
Definition slot_parameter (e : Cwa.WeatherElement) (i : nat) : Cwa.ParameterValue :=
  default {| Cwa.parameterName := "" |} (Cwa.parameter <$> Cwa.time e !! i).

(** The record the [forEach] leaves when no callback throws. *)
Definition merged (i : nat) (elements : list Cwa.WeatherElement) (forecast : Forecast)
  : Forecast :=
  foldl (λ f e, switch_elementName (Cwa.elementName e) (slot_parameter e i) f)
        forecast elements.
Global Arguments merged : simpl never.

(** The record a slot starts from. *)
Definition seed (slot : Cwa.TimeSlot) : Forecast :=
  {| startTime := Cwa.startTime slot; endTime := Cwa.endTime slot;
     weather := ""; rain := ""; minTemp := ""; maxTemp := "";
     comfort := ""; windSpeed := "" |}.

Definition has_slot (i : nat) (e : Cwa.WeatherElement) : bool :=
  bool_decide (i < length (Cwa.time e))%nat.

(** The outbound call [getWeatherByLocation] makes for a city. *)
Definition forecast_request (env : Env) (locationName : string) : HttpGet :=
  {| url := CWA_API_BASE_URL +:+ "/v1/rest/datastore/F-C0032-001";
     params := [("Authorization", CWA_API_KEY env);
                ("locationName", Some locationName)] |}.

(** ** The upstream-error reply as the specification words it *)

(** [B.message] as a property of the body: absent when [B] is not an object
    or has no such key. *)
Definition message_property (B : json) : jsval :=
  match B with
  | JObj fields => assoc "message" fields
  | _ => None
  end.

(** "status S and a body with [message: B.message] (or a fallback message
    when [B.message] is absent) and [details: B]". *)
Definition stated_upstream_response (S : Z) (B : json) : HttpResponse :=
  {| statusCode := S;
     body := UpstreamErrorBody "CWA API 錯誤"
               (default (JStr "無法取得天氣資料") (message_property B)) B |}.

(** ** The slug as the specification words it *)

(** "Replace 縣 with county, 市 with city, then lowercase." *)
Definition slug (city : string) : string :=
  Js.toLowerCase (Js.replace "市" "city" (Js.replace "縣" "county" city)).

Definition weather_path (city : string) : string := "/api/weather/" +:+ slug city.

(** ** Sample data *)

Module Sample.
Definition slot (s e v : string) : Cwa.TimeSlot :=
  {| Cwa.startTime := s; Cwa.endTime := e;
     Cwa.parameter := {| Cwa.parameterName := v |} |}.

Definition element (name v1 v2 : string) : Cwa.WeatherElement :=
  {| Cwa.elementName := name;
     Cwa.time := [slot "2026-11-02 06:00:00" "2026-11-02 18:00:00" v1;
                  slot "2026-11-02 18:00:00" "2026-11-03 06:00:00" v2] |}.

Definition Wx := element "Wx" "多雲" "陰短暫雨".
Definition PoP := element "PoP" "20" "70".
Definition MinT := element "MinT" "19" "17".
Definition CI := element "CI" "舒適" "稍有寒意".
Definition MaxT := element "MaxT" "24" "20".

Definition block : Cwa.Location :=
  {| Cwa.locationName := "新竹縣";
     Cwa.weatherElement := [Wx; PoP; MinT; CI; MaxT] |}.

Definition recs : Cwa.Records :=
  {| Cwa.datasetDescription := "三十六小時天氣預報";
     Cwa.issueTime := "2026-11-02 05:00:00";
     Cwa.location := [block] |}.

Definition payload : Cwa.Data := {| Cwa.records := recs |}.

(** An environment with a key, whose upstream answers with [payload]. *)
Definition env : Env :=
  {| CWA_API_KEY := Some "CWA-KEY"; upstream := λ _, Normal payload;
     now := 1793606400123 |}.

(** The same deployment without a key. *)
Definition env_without_key : Env :=
  {| CWA_API_KEY := None; upstream := λ _, Normal payload;
     now := 1793606400123 |}.

(** The rejection axios produces for an upstream answer of status [S] and
    body [B]. *)
Definition failure (S : Z) (text : string) (B : json) : JsError :=
  {| message := "Request failed with status code " +:+ text;
     response := Some {| status := S; data := B |} |}.

Definition env_failing (error : JsError) : Env :=
  {| CWA_API_KEY := Some "CWA-KEY"; upstream := λ _, Throw error;
     now := 1793606400123 |}.

Definition unavailable : json := JObj [("message", JStr "service unavailable")].
Definition empty_message : json := JObj [("message", JStr "")].

(** A payload that has no block for 新竹縣. *)
Definition other_payload : Cwa.Data :=
  {| Cwa.records :=
       {| Cwa.datasetDescription := "三十六小時天氣預報";
          Cwa.issueTime := "2026-11-02 05:00:00";
          Cwa.location :=
            [ {| Cwa.locationName := "臺北市"; Cwa.weatherElement := [Wx] |} ] |} |}.

Definition env_other : Env :=
  {| CWA_API_KEY := Some "CWA-KEY"; upstream := λ _, Normal other_payload;
     now := 1793606400123 |}.

Definition second_record : Forecast :=
  {| startTime := "2026-11-02 18:00:00"; endTime := "2026-11-03 06:00:00";
     weather := "陰短暫雨"; rain := "70%"; minTemp := "17°C";
     maxTemp := "20°C"; comfort := "稍有寒意"; windSpeed := "" |}.
End Sample.

(** ** Element kinds and further sample data *)

(** The names the [switch] has a case for. *)
Definition recognized (name : string) : bool :=
  String.eqb name "Wx" || String.eqb name "PoP" || String.eqb name "MinT"
  || String.eqb name "MaxT" || String.eqb name "CI".

Module Edge.
(** A wind-speed element, a kind the [switch] has no case for, with two
    slots and with one. *)
Definition WS : Cwa.WeatherElement := Sample.element "WS" "3" "4".
Definition WS_short : Cwa.WeatherElement :=
  {| Cwa.elementName := "WS";
     Cwa.time := [Sample.slot "2026-11-02 06:00:00" "2026-11-02 18:00:00" "3"] |}.

Definition block_of (elements : list Cwa.WeatherElement) : Cwa.Location :=
  {| Cwa.locationName := "新竹縣"; Cwa.weatherElement := elements |}.

Definition env_of (elements : list Cwa.WeatherElement) : Env :=
  {| CWA_API_KEY := Some "CWA-KEY";
     upstream := λ _, Normal
       {| Cwa.records :=
            {| Cwa.datasetDescription := "三十六小時天氣預報";
               Cwa.issueTime := "2026-11-02 05:00:00";
               Cwa.location := [block_of elements] |} |};
     now := 1793606400123 |}.

(** The second record of a block that has no PoP element. *)
Definition dry_record : Forecast :=
  {| startTime := "2026-11-02 18:00:00"; endTime := "2026-11-03 06:00:00";
     weather := "陰短暫雨"; rain := ""; minTemp := "17°C";
     maxTemp := "20°C"; comfort := ""; windSpeed := "" |}.

Definition dry_data : WeatherData :=
  {| city := "新竹縣";
     datasetDescription := "三十六小時天氣預報";
     dataUpdateTime := "2026-11-02 05:00:00";
     forecasts :=
       [ {| startTime := "2026-11-02 06:00:00"; endTime := "2026-11-02 18:00:00";
            weather := "多雲"; rain := ""; minTemp := "19°C";
            maxTemp := "24°C"; comfort := ""; windSpeed := "" |};
         dry_record ] |}.
End Edge.

(** ** Where the string and object models are exact *)

Definition continuation (n : N) : bool := ((128 <=? n) && (n <=? 191))%N.

(** Text made of ASCII characters and CJK unified ideographs (U+4E00 to
    U+9FFF, in UTF-8 the three bytes E4 B8 80 to E9 BF BF).  The ideographs
    have no case mapping, so on such text [Js.toLowerCase] is JavaScript's
    [toLowerCase]. *)
Fixpoint plain_text (s : string) : bool :=
  match s with
  | "" => true
  | String c s' =>
      let n := Ascii.N_of_ascii c in
      if (n <? 128)%N then plain_text s'
      else
        match s' with
        | String c1 (String c2 s'') =>
            let n1 := Ascii.N_of_ascii c1 in
            let n2 := Ascii.N_of_ascii c2 in
            ((228 <=? n) && (n <=? 233))%N
            && continuation n1 && continuation n2
            && (if (n =? 228)%N then (184 <=? n1)%N else true)
            && plain_text s''
        | _ => false
        end
  end.

(** ** [cors()] with its default options *)

(** The middleware the [cors] package builds when called without options,
    as the package documents it: a preflight request (method OPTIONS) is
    answered by the middleware itself, with status 204 and no body; any
    other request is passed on (with a response header the model does not
    hold). *)
Definition cors_default (req : Request) : Middleware :=
  match method req with
  | OPTIONS => End {| statusCode := 204; body := EmptyBody |}
  | _ => Next
  end.

(** A preflight request for a path no route is registered at. *)
Definition preflight_unknown : Request :=
  {| method := OPTIONS; path := "/api/weather/unknown"; headers := []; payload := "" |}.

(** * Properties *)

(** ** Completions *)

Lemma index_lookup {A} (xs : list A) i prop x :
  xs !! i = Some x → index xs i prop = Normal x.
Proof. unfold index. by intros ->. Qed.

Lemma index_Normal {A} (xs : list A) i prop x :
  index xs i prop = Normal x → xs !! i = Some x.
Proof. unfold index. destruct (xs !! i); naive_solver. Qed.

Lemma index_out_of_range {A} (xs : list A) i prop :
  (length xs ≤ i)%nat → index xs i prop = Throw (TypeError "undefined" prop).
Proof. intros H. unfold index. by rewrite lookup_ge_None_2. Qed.

Lemma has_slot_lookup i e :
  has_slot i e = true → ∃ slot, Cwa.time e !! i = Some slot.
Proof.
  unfold has_slot. intros H%bool_decide_eq_true.
  by apply lookup_lt_is_Some_2 in H as [slot ?]; eauto.
Qed.

Lemma has_slot_false i e :
  has_slot i e = false → (length (Cwa.time e) ≤ i)%nat.
Proof. unfold has_slot. intros H%bool_decide_eq_false. lia. Qed.

(** ** The [switch], field by field *)

Section Switch.
Variables (name : string) (value : Cwa.ParameterValue) (f : Forecast).

Local Ltac by_cases :=
  unfold switch_elementName;
  repeat match goal with
         | |- context [String.eqb name ?k] =>
             destruct (String.eqb_spec name k); simplify_eq/=
         end; done.

Lemma switch_startTime : startTime (switch_elementName name value f) = startTime f.
Proof. by_cases. Qed.

Lemma switch_endTime : endTime (switch_elementName name value f) = endTime f.
Proof. by_cases. Qed.

Lemma switch_windSpeed : windSpeed (switch_elementName name value f) = windSpeed f.
Proof. by_cases. Qed.

Lemma switch_weather :
  weather (switch_elementName name value f) =
  if String.eqb name "Wx" then Cwa.parameterName value else weather f.
Proof. by_cases. Qed.

Lemma switch_rain :
  rain (switch_elementName name value f) =
  if String.eqb name "PoP" then Cwa.parameterName value +:+ "%" else rain f.
Proof. by_cases. Qed.

Lemma switch_minTemp :
  minTemp (switch_elementName name value f) =
  if String.eqb name "MinT" then Cwa.parameterName value +:+ "°C" else minTemp f.
Proof. by_cases. Qed.

Lemma switch_maxTemp :
  maxTemp (switch_elementName name value f) =
  if String.eqb name "MaxT" then Cwa.parameterName value +:+ "°C" else maxTemp f.
Proof. by_cases. Qed.

Lemma switch_comfort :
  comfort (switch_elementName name value f) =
  if String.eqb name "CI" then Cwa.parameterName value else comfort f.
Proof. by_cases. Qed.
End Switch.

(** ** The [forEach] over the elements *)

Lemma last_named_snoc name elements e :
  last_named name (elements ++ [e]) =
  if String.eqb (Cwa.elementName e) name then Some e else last_named name elements.
Proof. unfold last_named. by rewrite rev_unit. Qed.

Lemma merged_snoc i elements e f :
  merged i (elements ++ [e]) f =
  switch_elementName (Cwa.elementName e) (slot_parameter e i) (merged i elements f).
Proof. unfold merged. by rewrite foldl_snoc. Qed.

Lemma merged_cons i elements e f :
  merged i (e :: elements) f =
  merged i elements (switch_elementName (Cwa.elementName e) (slot_parameter e i) f).
Proof. done. Qed.

(** A field written by the case [name]: it holds what the last element of
    that name wrote, or its initial value. *)
Section MergedField.
Variables (field : Forecast → string) (name : string)
          (written : Cwa.ParameterValue → string).
Hypothesis switch_field : ∀ n v f,
  field (switch_elementName n v f) = if String.eqb n name then written v else field f.

Lemma merged_field i elements f :
  field (merged i elements f) =
  match last_named name elements with
  | Some e => written (slot_parameter e i)
  | None => field f
  end.
Proof.
  induction elements as [|e elements IH] using rev_ind; [done|].
  rewrite merged_snoc, last_named_snoc, switch_field.
  by destruct (String.eqb (Cwa.elementName e) name).
Qed.
End MergedField.

(** A field no case writes keeps its initial value. *)
Section MergedKept.
Variable field : Forecast → string.
Hypothesis switch_field : ∀ n v f, field (switch_elementName n v f) = field f.

Lemma merged_kept i elements f : field (merged i elements f) = field f.
Proof.
  induction elements as [|e elements IH] using rev_ind; [done|].
  by rewrite merged_snoc, switch_field.
Qed.
End MergedKept.

Lemma forEach_elements_eq i elements f :
  forEach_elements i elements f =
  if forallb (has_slot i) elements then Normal (merged i elements f)
  else Throw (TypeError "undefined" "parameter").
Proof.
  revert f. induction elements as [|e elements IH]; intros f; [done|].
  simpl. unfold assign_element. destruct (has_slot i e) eqn:He; simpl.
  - destruct (has_slot_lookup _ _ He) as [slot Hslot].
    rewrite (index_lookup _ _ _ _ Hslot). simpl. rewrite IH.
    rewrite merged_cons. unfold slot_parameter. by rewrite Hslot.
  - by rewrite index_out_of_range by by apply has_slot_false.
Qed.

(** ** One slot, and the loop over the slots *)

Lemma forecast_at_Normal elements i f :
  forecast_at elements i = Normal f ↔
  ∃ first rest slot,
    elements = first :: rest ∧ Cwa.time first !! i = Some slot ∧
    forallb (has_slot i) elements = true ∧ f = merged i elements (seed slot).
Proof.
  unfold forecast_at. destruct elements as [|first rest].
  { split; [done|]. by intros (? & ? & ? & ? & _). }
  cbn [index lookup list_lookup mbind completion_bind].
  unfold index. destruct (Cwa.time first !! i) as [slot|] eqn:Hslot.
  - cbn [mbind completion_bind]. fold (seed slot). rewrite forEach_elements_eq.
    destruct (forallb (has_slot i) (first :: rest)) eqn:Hall.
    + split.
      * intros [= <-]. by exists first, rest, slot.
      * intros (? & ? & ? & [= <- <-] & ? & _ & ->). by simplify_eq.
    + split; [done|]. by intros (? & ? & ? & _ & _ & ? & _).
  - split; [done|]. intros (? & ? & ? & [= <- <-] & ? & _). congruence.
Qed.

Lemma for_slots_Normal elements n i acc fs :
  for_slots elements n i acc = Normal fs ↔
  ∃ l, fs = acc ++ l ∧ length l = n ∧
       ∀ j, (j < n)%nat → ∃ f, l !! j = Some f ∧ forecast_at elements (i + j) = Normal f.
Proof.
  revert i acc fs. induction n as [|n IH]; intros i acc fs; simpl.
  - split.
    + intros [= <-]. exists []. rewrite app_nil_r. split_and!; [done..|lia].
    + intros (l & -> & Hl & _). destruct l; [|done]. by rewrite app_nil_r.
  - destruct (forecast_at elements i) as [f|e] eqn:Hat; simpl.
    + rewrite IH. split.
      * intros (l & -> & Hl & Hall). exists (f :: l).
        rewrite <- app_assoc. split_and!; [done|simpl; lia|].
        intros [|j] Hj; simpl.
        -- exists f. by rewrite Nat.add_0_r.
        -- destruct (Hall j ltac:(lia)) as (f' & ? & ?). exists f'.
           by rewrite <- Nat.add_succ_comm.
      * intros (l & -> & Hl & Hall). destruct l as [|f' l]; [done|].
        destruct (Hall 0%nat ltac:(lia)) as (f0 & [= <-] & Hf0).
        rewrite Nat.add_0_r, Hat in Hf0. injection Hf0 as <-.
        exists l. rewrite <- app_assoc. split_and!; [done|simpl in Hl; lia|].
        intros j Hj. destruct (Hall (S j) ltac:(lia)) as (f' & ? & ?).
        exists f'. by rewrite Nat.add_succ_comm.
    + split; [done|]. intros (l & -> & Hl & Hall).
      destruct (Hall 0%nat ltac:(lia)) as (f0 & _ & Hf0).
      rewrite Nat.add_0_r in Hf0. congruence.
Qed.

(** The normalizer succeeds exactly when there is a first element and no
    element has fewer slots than it; its records are then the merged records
    of the slots of the first element, in order. *)
Lemma normalize_Normal locationName recs block wd :
  normalize locationName recs block = Normal wd ↔
  ∃ first rest,
    Cwa.weatherElement block = first :: rest ∧
    Forall (λ e, (length (Cwa.time first) ≤ length (Cwa.time e))%nat) rest ∧
    city wd = locationName ∧
    datasetDescription wd = Cwa.datasetDescription recs ∧
    dataUpdateTime wd = Cwa.issueTime recs ∧
    length (forecasts wd) = length (Cwa.time first) ∧
    ∀ i slot, Cwa.time first !! i = Some slot →
      forecasts wd !! i = Some (merged i (first :: rest) (seed slot)).
Proof.
  unfold normalize. destruct (Cwa.weatherElement block) as [|first rest] eqn:Hel.
  { split; [done|]. by intros (? & ? & ? & _). }
  cbn [index lookup list_lookup mbind completion_bind].
  destruct (for_slots (first :: rest) (length (Cwa.time first)) 0 []) as [fs|e] eqn:Hfs.
  - apply for_slots_Normal in Hfs as (l & -> & Hlen & Hall).
    cbn [Nat.add] in Hall. simpl. split.
    + intros [= <-]. exists first, rest. simpl. split_and!; try done.
      * apply Forall_forall. intros e He.
        destruct (decide (length (Cwa.time first) = 0)%nat) as [->|Hne]; [lia|].
        destruct (Hall (length (Cwa.time first) - 1)%nat ltac:(lia)) as (f & _ & Hf).
        apply forecast_at_Normal in Hf as (? & ? & ? & [= <- <-] & _ & Hs & _).
        simpl in Hs. apply andb_true_iff in Hs as [_ Hs].
        rewrite forallb_forall in Hs. apply list_elem_of_In, Hs in He.
        unfold has_slot in He. apply bool_decide_eq_true in He. lia.
      * intros i slot Hslot.
        destruct (Hall i) as (f & -> & Hf); [by eapply lookup_lt_Some|].
        apply forecast_at_Normal in Hf as (? & ? & ? & [= <- <-] & ? & _ & ->).
        by simplify_eq.
    + intros (? & ? & [= <- <-] & _ & Hc & Hd & Hu & Hn & Hrec).
      f_equal. destruct wd as [c d u fs]. simpl in *. subst. f_equal.
      apply list_eq_same_length with (length (Cwa.time first)); [done..|].
      intros i f f' Hi Hf Hf'.
      destruct (lookup_lt_is_Some_2 (Cwa.time first) i Hi) as [slot Hslot].
      rewrite (Hrec _ _ Hslot) in Hf'.
      destruct (Hall i Hi) as (f'' & Hl & Hat).
      apply forecast_at_Normal in Hat as (? & ? & ? & [= <- <-] & ? & _ & ->).
      by simplify_eq.
  - simpl. split; [done|].
    intros (first' & rest' & [= <- <-] & Hlen & _ & _ & _ & Hn & Hrec).
    assert (∃ fs, for_slots (first :: rest) (length (Cwa.time first)) 0 [] = Normal fs)
      as [fs Hfs']; [|congruence].
    exists (forecasts wd). apply for_slots_Normal. exists (forecasts wd).
    split_and!; [done..|]. intros j Hj.
    destruct (lookup_lt_is_Some_2 (Cwa.time first) j Hj) as [slot Hslot].
    exists (merged j (first :: rest) (seed slot)). split; [by apply Hrec|].
    apply forecast_at_Normal. exists first, rest, slot. split_and!; [done..| |done].
    simpl. apply andb_true_iff. split.
    + unfold has_slot. by apply bool_decide_eq_true.
    + apply forallb_forall. intros e' He. unfold has_slot. apply bool_decide_eq_true.
      rewrite Forall_forall in Hlen. apply list_elem_of_In, Hlen in He. lia.
Qed.

Lemma Forecast_eq (f g : Forecast) :
  startTime f = startTime g → endTime f = endTime g →
  weather f = weather g → rain f = rain g →
  minTemp f = minTemp g → maxTemp f = maxTemp g →
  comfort f = comfort g → windSpeed f = windSpeed g → f = g.
Proof. destruct f, g; simpl; congruence. Qed.

Lemma last_named_elem name elements e :
  last_named name elements = Some e → e ∈ elements ∧ Cwa.elementName e = name.
Proof.
  unfold last_named. intros [Hin Hname]%find_some. split.
  - by apply list_elem_of_In, in_rev.
  - by apply String.eqb_eq.
Qed.

Lemma last_named_is_Some name elements :
  is_Some (last_named name elements) ↔
  ∃ e, e ∈ elements ∧ Cwa.elementName e = name.
Proof.
  split.
  - intros [e He]. exists e. by apply last_named_elem.
  - intros (e & Hin & Hname). unfold last_named.
    destruct (List.find _ (rev elements)) as [e'|] eqn:Hfind; [by eexists|].
    apply list_elem_of_In, in_rev in Hin.
    apply (find_none _ _ Hfind), String.eqb_neq in Hin. done.
Qed.

(** When no other element carries the name of [e], [e] is the element that
    decides the field of its kind. *)
Lemma last_named_only elements e :
  e ∈ elements →
  (∀ e', e' ∈ elements → Cwa.elementName e' = Cwa.elementName e → e' = e) →
  last_named (Cwa.elementName e) elements = Some e.
Proof.
  intros Hin Honly.
  destruct (proj2 (last_named_is_Some (Cwa.elementName e) elements)) as [e' He'];
    [by exists e|].
  rewrite He'. f_equal. apply last_named_elem in He' as [? ?]. by apply Honly.
Qed.

Lemma slot_parameter_lookup e i slot :
  Cwa.time e !! i = Some slot → slot_parameter e i = Cwa.parameter slot.
Proof. unfold slot_parameter. by intros ->. Qed.

(** The fields of a merged record that starts from a seed. *)
Lemma merged_seed_startTime i elements slot :
  startTime (merged i elements (seed slot)) = Cwa.startTime slot.
Proof. by rewrite (merged_kept startTime switch_startTime). Qed.

Lemma merged_seed_endTime i elements slot :
  endTime (merged i elements (seed slot)) = Cwa.endTime slot.
Proof. by rewrite (merged_kept endTime switch_endTime). Qed.

Lemma merged_seed_windSpeed i elements slot :
  windSpeed (merged i elements (seed slot)) = "".
Proof. by rewrite (merged_kept windSpeed switch_windSpeed). Qed.

(** ** The normalizer: claims C1, C5 and C6 *)

(** C1.  A block whose elements all have [N] slots and which has an element
    of each of the five kinds Wx, PoP, MinT, MaxT and CI is normalized into
    exactly [N] records, in slot order.  Record [i] has the start and end
    time of slot [i] of the first element, the value of slot [i] of the Wx
    element as [weather], of the PoP element followed by "%" as [rain], of
    the MinT and MaxT elements followed by "°C" as [minTemp] and [maxTemp],
    of the CI element as [comfort], and the empty string as [windSpeed].
    (Were a kind to occur twice, [last_named] picks the later element, which
    is the one [forEach] lets win.) *)
Theorem normalize_records locationName recs block first rest N wx pop mint maxt ci :
  Cwa.weatherElement block = first :: rest →
  Forall (λ e, length (Cwa.time e) = N) (first :: rest) →
  last_named "Wx" (first :: rest) = Some wx →
  last_named "PoP" (first :: rest) = Some pop →
  last_named "MinT" (first :: rest) = Some mint →
  last_named "MaxT" (first :: rest) = Some maxt →
  last_named "CI" (first :: rest) = Some ci →
  ∃ wd,
    normalize locationName recs block = Normal wd ∧
    length (forecasts wd) = N ∧
    ∀ i, (i < N)%nat →
      ∃ slot swx spop smint smaxt sci,
        Cwa.time first !! i = Some slot ∧
        Cwa.time wx !! i = Some swx ∧
        Cwa.time pop !! i = Some spop ∧
        Cwa.time mint !! i = Some smint ∧
        Cwa.time maxt !! i = Some smaxt ∧
        Cwa.time ci !! i = Some sci ∧
        forecasts wd !! i = Some
          {| startTime := Cwa.startTime slot;
             endTime := Cwa.endTime slot;
             weather := Cwa.parameterName (Cwa.parameter swx);
             rain := Cwa.parameterName (Cwa.parameter spop) +:+ "%";
             minTemp := Cwa.parameterName (Cwa.parameter smint) +:+ "°C";
             maxTemp := Cwa.parameterName (Cwa.parameter smaxt) +:+ "°C";
             comfort := Cwa.parameterName (Cwa.parameter sci);
             windSpeed := "" |}.
Proof.
  intros Hel Hlen Hwx Hpop Hmint Hmaxt Hci.
  set (wd := {| city := locationName;
                datasetDescription := Cwa.datasetDescription recs;
                dataUpdateTime := Cwa.issueTime recs;
                forecasts := imap (λ i slot, merged i (first :: rest) (seed slot))
                                  (Cwa.time first) |}).
  assert (HN : length (Cwa.time first) = N) by by inversion Hlen.
  assert (Hslots : ∀ e i, e ∈ first :: rest → (i < N)%nat →
                          ∃ s, Cwa.time e !! i = Some s).
  { intros e i He Hi. apply lookup_lt_is_Some_2.
    rewrite Forall_forall in Hlen. by rewrite (Hlen e He). }
  assert (Hnorm : normalize locationName recs block = Normal wd).
  { apply normalize_Normal. exists first, rest. split_and!; try done.
    - apply Forall_forall. intros e He. rewrite Forall_forall in Hlen.
      rewrite HN, (Hlen e); [done|]. by right.
    - simpl. by rewrite length_imap.
    - intros i slot Hslot. simpl. by rewrite list_lookup_imap, Hslot. }
  exists wd. split_and!; [done|by simpl; rewrite length_imap|].
  intros i Hi.
  apply last_named_elem in Hwx as Hwx', Hpop as Hpop', Hmint as Hmint',
    Hmaxt as Hmaxt', Hci as Hci'.
  destruct (Hslots first i) as [slot Hslot]; [by left|done|].
  destruct (Hslots wx i) as [swx Hswx]; [by apply Hwx'|done|].
  destruct (Hslots pop i) as [spop Hspop]; [by apply Hpop'|done|].
  destruct (Hslots mint i) as [smint Hsmint]; [by apply Hmint'|done|].
  destruct (Hslots maxt i) as [smaxt Hsmaxt]; [by apply Hmaxt'|done|].
  destruct (Hslots ci i) as [sci Hsci]; [by apply Hci'|done|].
  exists slot, swx, spop, smint, smaxt, sci. split_and!; try done.
  simpl. rewrite list_lookup_imap, Hslot. simpl. f_equal.
  apply Forecast_eq; simpl.
  - apply merged_seed_startTime.
  - apply merged_seed_endTime.
  - by rewrite (merged_field weather "Wx" _ switch_weather), Hwx,
      (slot_parameter_lookup _ _ _ Hswx).
  - by rewrite (merged_field rain "PoP" _ switch_rain), Hpop,
      (slot_parameter_lookup _ _ _ Hspop).
  - by rewrite (merged_field minTemp "MinT" _ switch_minTemp), Hmint,
      (slot_parameter_lookup _ _ _ Hsmint).
  - by rewrite (merged_field maxTemp "MaxT" _ switch_maxTemp), Hmaxt,
      (slot_parameter_lookup _ _ _ Hsmaxt).
  - by rewrite (merged_field comfort "CI" _ switch_comfort), Hci,
      (slot_parameter_lookup _ _ _ Hsci).
  - apply merged_seed_windSpeed.
Qed.

Lemma normalize_records_witness :
  ∃ wd,
    normalize "新竹縣" Sample.recs Sample.block = Normal wd ∧
    length (forecasts wd) = 2%nat ∧
    ∀ i, (i < 2)%nat →
      ∃ slot swx spop smint smaxt sci,
        Cwa.time Sample.Wx !! i = Some slot ∧
        Cwa.time Sample.Wx !! i = Some swx ∧
        Cwa.time Sample.PoP !! i = Some spop ∧
        Cwa.time Sample.MinT !! i = Some smint ∧
        Cwa.time Sample.MaxT !! i = Some smaxt ∧
        Cwa.time Sample.CI !! i = Some sci ∧
        forecasts wd !! i = Some
          {| startTime := Cwa.startTime slot;
             endTime := Cwa.endTime slot;
             weather := Cwa.parameterName (Cwa.parameter swx);
             rain := Cwa.parameterName (Cwa.parameter spop) +:+ "%";
             minTemp := Cwa.parameterName (Cwa.parameter smint) +:+ "°C";
             maxTemp := Cwa.parameterName (Cwa.parameter smaxt) +:+ "°C";
             comfort := Cwa.parameterName (Cwa.parameter sci);
             windSpeed := "" |}.
Proof.
  apply (normalize_records "新竹縣" Sample.recs Sample.block Sample.Wx
           [Sample.PoP; Sample.MinT; Sample.CI; Sample.MaxT] 2
           Sample.Wx Sample.PoP Sample.MinT Sample.MaxT Sample.CI);
    [reflexivity | repeat constructor | reflexivity..].
Defined.

(** What the sample block is normalized into. *)
Example normalize_sample :
  forecasts <$> normalize "新竹縣" Sample.recs Sample.block = Normal
    [ {| startTime := "2026-11-02 06:00:00"; endTime := "2026-11-02 18:00:00";
         weather := "多雲"; rain := "20%"; minTemp := "19°C"; maxTemp := "24°C";
         comfort := "舒適"; windSpeed := "" |};
      {| startTime := "2026-11-02 18:00:00"; endTime := "2026-11-03 06:00:00";
         weather := "陰短暫雨"; rain := "70%"; minTemp := "17°C"; maxTemp := "20°C";
         comfort := "稍有寒意"; windSpeed := "" |} ].
Proof. reflexivity. Qed.

(** C5.  In a record the normalizer produced for slot [i], [rain] is the
    parameter value of the PoP element at that slot with "%" appended, and
    [minTemp] and [maxTemp] are the values of the MinT and MaxT elements
    with "°C" appended: the suffix is appended to the text of the value, no
    number is computed.  Each holds when the block has an element of that
    kind. *)
Theorem rain_and_temperature_suffixes locationName recs block wd i f :
  normalize locationName recs block = Normal wd →
  forecasts wd !! i = Some f →
  (∀ e slot, last_named "PoP" (Cwa.weatherElement block) = Some e →
             Cwa.time e !! i = Some slot →
             rain f = Cwa.parameterName (Cwa.parameter slot) +:+ "%") ∧
  (∀ e slot, last_named "MinT" (Cwa.weatherElement block) = Some e →
             Cwa.time e !! i = Some slot →
             minTemp f = Cwa.parameterName (Cwa.parameter slot) +:+ "°C") ∧
  (∀ e slot, last_named "MaxT" (Cwa.weatherElement block) = Some e →
             Cwa.time e !! i = Some slot →
             maxTemp f = Cwa.parameterName (Cwa.parameter slot) +:+ "°C").
Proof.
  intros (first & rest & Hel & _ & _ & _ & _ & Hn & Hrec)%normalize_Normal Hf.
  assert (Hi : (i < length (Cwa.time first))%nat).
  { rewrite <- Hn. by eapply lookup_lt_Some. }
  destruct (lookup_lt_is_Some_2 _ _ Hi) as [slot0 Hslot0].
  rewrite (Hrec _ _ Hslot0) in Hf. injection Hf as <-. rewrite Hel.
  split_and!; intros e slot He Hslot.
  - by rewrite (merged_field rain "PoP" _ switch_rain), He,
      (slot_parameter_lookup _ _ _ Hslot).
  - by rewrite (merged_field minTemp "MinT" _ switch_minTemp), He,
      (slot_parameter_lookup _ _ _ Hslot).
  - by rewrite (merged_field maxTemp "MaxT" _ switch_maxTemp), He,
      (slot_parameter_lookup _ _ _ Hslot).
Qed.

Lemma rain_and_temperature_suffixes_witness :
  (∀ e slot, last_named "PoP" (Cwa.weatherElement Sample.block) = Some e →
             Cwa.time e !! 1%nat = Some slot →
             rain Sample.second_record =
               Cwa.parameterName (Cwa.parameter slot) +:+ "%") ∧
  (∀ e slot, last_named "MinT" (Cwa.weatherElement Sample.block) = Some e →
             Cwa.time e !! 1%nat = Some slot →
             minTemp Sample.second_record =
               Cwa.parameterName (Cwa.parameter slot) +:+ "°C") ∧
  (∀ e slot, last_named "MaxT" (Cwa.weatherElement Sample.block) = Some e →
             Cwa.time e !! 1%nat = Some slot →
             maxTemp Sample.second_record =
               Cwa.parameterName (Cwa.parameter slot) +:+ "°C").
Proof.
  apply (rain_and_temperature_suffixes "新竹縣" Sample.recs Sample.block
           {| city := "新竹縣";
              datasetDescription := "三十六小時天氣預報";
              dataUpdateTime := "2026-11-02 05:00:00";
              forecasts :=
                [ {| startTime := "2026-11-02 06:00:00";
                     endTime := "2026-11-02 18:00:00";
                     weather := "多雲"; rain := "20%"; minTemp := "19°C";
                     maxTemp := "24°C"; comfort := "舒適"; windSpeed := "" |};
                  Sample.second_record ] |} 1%nat Sample.second_record);
    reflexivity.
Defined.

(** C6.  On a block that has at least one element and in which every
    element has as many slots as the first, the normalizer completes
    normally: none of its property reads throws.  It is a function into
    [completion], with no effect of its own: in a call of
    [getWeatherByLocation] that reaches it, the only event is the one
    outbound request that precedes it. *)
Theorem normalize_total locationName recs block first rest :
  Cwa.weatherElement block = first :: rest →
  Forall (λ e, length (Cwa.time e) = length (Cwa.time first)) rest →
  ∃ wd,
    normalize locationName recs block = Normal wd ∧
    ∀ env data,
      is_set (CWA_API_KEY env) = true →
      upstream env (forecast_request env locationName) = Normal data →
      Cwa.records data = recs →
      List.find (λ loc, String.eqb (Cwa.locationName loc) locationName)
                (Cwa.location recs) = Some block →
      getWeatherByLocation env locationName =
        mkIo [EvHttpGet (forecast_request env locationName)] (Normal wd).
Proof.
  intros Hel Hlen.
  set (wd := {| city := locationName;
                datasetDescription := Cwa.datasetDescription recs;
                dataUpdateTime := Cwa.issueTime recs;
                forecasts := imap (λ i slot, merged i (first :: rest) (seed slot))
                                  (Cwa.time first) |}).
  assert (Hnorm : normalize locationName recs block = Normal wd).
  { apply normalize_Normal. exists first, rest. split_and!; try done.
    - eapply Forall_impl; [exact Hlen|]. simpl. intros e ->. done.
    - simpl. by rewrite length_imap.
    - intros i slot Hslot. simpl. by rewrite list_lookup_imap, Hslot. }
  exists wd. split; [done|].
  intros env data Hkey Hup <- Hfind.
  unfold getWeatherByLocation. rewrite Hkey. simpl.
  unfold mbind, Io_bind, axios_get. simpl.
  fold (forecast_request env locationName). rewrite Hup. simpl.
  by rewrite Hfind, Hnorm.
Qed.

Lemma normalize_total_witness :
  ∃ wd,
    normalize "新竹縣" Sample.recs Sample.block = Normal wd ∧
    ∀ env data,
      is_set (CWA_API_KEY env) = true →
      upstream env (forecast_request env "新竹縣") = Normal data →
      Cwa.records data = Sample.recs →
      List.find (λ loc, String.eqb (Cwa.locationName loc) "新竹縣")
                (Cwa.location Sample.recs) = Some Sample.block →
      getWeatherByLocation env "新竹縣" =
        mkIo [EvHttpGet (forecast_request env "新竹縣")] (Normal wd).
Proof.
  apply (normalize_total "新竹縣" Sample.recs Sample.block Sample.Wx
           [Sample.PoP; Sample.MinT; Sample.CI; Sample.MaxT]);
    [reflexivity | repeat constructor].
Defined.

(** ** The client and the [catch] block: claims C2, C3, C4 and C10 *)

Lemma getWeatherByLocation_unset env locationName :
  is_set (CWA_API_KEY env) = false →
  getWeatherByLocation env locationName =
    mkIo [] (Throw (Error "伺服器設定錯誤: 請在 .env 檔案中設定 CWA_API_KEY")).
Proof. intros H. unfold getWeatherByLocation. by rewrite H. Qed.

Lemma getWeatherByLocation_rejected env locationName error :
  is_set (CWA_API_KEY env) = true →
  upstream env (forecast_request env locationName) = Throw error →
  getWeatherByLocation env locationName =
    mkIo [EvHttpGet (forecast_request env locationName)] (Throw error).
Proof.
  intros Hkey Hup. unfold getWeatherByLocation. rewrite Hkey. simpl.
  unfold mbind, Io_bind, axios_get. simpl.
  fold (forecast_request env locationName). by rewrite Hup.
Qed.

Lemma find_none_iff locationName (blocks : list Cwa.Location) :
  List.find (λ loc, String.eqb (Cwa.locationName loc) locationName) blocks = None ↔
  ∀ loc, loc ∈ blocks → Cwa.locationName loc ≠ locationName.
Proof.
  split.
  - intros Hnone loc Hin%list_elem_of_In.
    by apply (find_none _ _ Hnone), String.eqb_neq in Hin.
  - intros Hall. induction blocks as [|b blocks IH]; [done|]. simpl.
    destruct (String.eqb_spec (Cwa.locationName b) locationName) as [Heq|_].
    + exfalso. by apply (Hall b); [left|].
    + apply IH. intros loc Hin. apply Hall. by right.
Qed.

Lemma getWeatherByLocation_not_found env locationName data :
  is_set (CWA_API_KEY env) = true →
  upstream env (forecast_request env locationName) = Normal data →
  (∀ loc, loc ∈ Cwa.location (Cwa.records data) → Cwa.locationName loc ≠ locationName) →
  getWeatherByLocation env locationName =
    mkIo [EvHttpGet (forecast_request env locationName)]
         (Throw (Error ("查無資料: 無法取得 " +:+ locationName +:+ " 天氣資料"))).
Proof.
  intros Hkey Hup Hnone%find_none_iff. unfold getWeatherByLocation.
  rewrite Hkey. simpl. unfold mbind, Io_bind, axios_get. simpl.
  fold (forecast_request env locationName). rewrite Hup. simpl.
  by rewrite Hnone.
Qed.

(** The handler runs the [catch] block on whatever the client throws. *)
Lemma handleWeatherRequest_catch env locationName error :
  result (getWeatherByLocation env locationName) = Throw error →
  handleWeatherRequest env locationName =
    mkIo (trace (getWeatherByLocation env locationName)
            ++ trace (on_error locationName error))
         (result (on_error locationName error)).
Proof. intros H. unfold handleWeatherRequest. by rewrite H. Qed.

(** The result of the [catch] block, branch by branch. *)
Lemma on_error_result locationName error :
  result (on_error locationName error) =
    if Js.includes "CWA_API_KEY" (message error) then result (config_reply error)
    else match response error with
         | Some resp => result (upstream_reply resp)
         | None => result (generic_reply locationName)
         end.
Proof.
  unfold on_error, mbind, Io_bind. simpl.
  destruct (Js.includes _ _); [done|]. by destruct (response error).
Qed.

Lemma upstream_reply_result resp :
  result (upstream_reply resp) =
    match data resp with
    | JNull => Throw (TypeError "null" "message")
    | B => Normal {| statusCode := status resp;
                     body := UpstreamErrorBody "CWA API 錯誤"
                               (or_else (message_property B) "無法取得天氣資料") B |}
    end.
Proof. unfold upstream_reply, mbind, Io_bind. simpl. by destruct (data resp). Qed.

Lemma config_reply_not_upstream error resp :
  result (config_reply error) ≠ result (upstream_reply resp).
Proof. rewrite upstream_reply_result. by destruct (data resp). Qed.

Lemma generic_reply_not_upstream locationName resp :
  result (generic_reply locationName) ≠ result (upstream_reply resp).
Proof. rewrite upstream_reply_result. by destruct (data resp). Qed.

Lemma config_reply_not_generic error locationName :
  result (config_reply error) ≠ result (generic_reply locationName).
Proof. simpl. by intros [=]. Qed.

Lemma weather_route_registered cities city :
  city ∈ cities → (weather_path city, WeatherHandler city) ∈ weather_routes cities.
Proof.
  intros Hin. unfold weather_routes.
  by apply (list_elem_of_fmap_2 (λ c, (weather_path c, WeatherHandler c))).
Qed.

Lemma route_registered city :
  city ∈ TAIWAN_CITIES → (weather_path city, WeatherHandler city) ∈ routes.
Proof.
  intros Hin. unfold routes. apply elem_of_app. right.
  by apply weather_route_registered.
Qed.

Lemma configured_cases (P : string → Prop) :
  P "新竹縣" → P "桃園市" → P "新竹市" → P "苗栗縣" →
  ∀ city, city ∈ TAIWAN_CITIES → P city.
Proof.
  intros H1 H2 H3 H4 city Hin. unfold TAIWAN_CITIES in Hin.
  repeat (apply elem_of_cons in Hin as [->|Hin]; [done|]).
  by apply elem_of_nil in Hin.
Qed.

(** C3.  For every configured city, when [CWA_API_KEY] is unset (or empty)
    [getWeatherByLocation] throws before any outbound call: its trace is
    empty.  The route registered for the city answers 500 with the body
    [{error: "伺服器設定錯誤", message}], where [message] is the thrown
    message, which names the missing [CWA_API_KEY]; the only event of the
    request is the console line. *)
Theorem missing_key_fails_fast env city :
  city ∈ TAIWAN_CITIES →
  is_set (CWA_API_KEY env) = false →
  getWeatherByLocation env city =
    mkIo [] (Throw (Error "伺服器設定錯誤: 請在 .env 檔案中設定 CWA_API_KEY")) ∧
  (weather_path city, WeatherHandler city) ∈ routes ∧
  ∃ msg,
    run_handler env (WeatherHandler city) =
      mkIo [EvConsoleError ["取得 " +:+ city +:+ " 天氣資料失敗:"; msg]]
           (Normal {| statusCode := 500;
                      body := ErrorBody "伺服器設定錯誤" msg |}) ∧
    Js.includes "CWA_API_KEY" msg = true.
Proof.
  intros Hcity Hkey. split_and!.
  - by apply getWeatherByLocation_unset.
  - by apply route_registered.
  - exists "伺服器設定錯誤: 請在 .env 檔案中設定 CWA_API_KEY". split; [|done].
    simpl. unfold handleWeatherRequest.
    by rewrite (getWeatherByLocation_unset _ _ Hkey).
Qed.

Lemma missing_key_fails_fast_witness :
  getWeatherByLocation Sample.env_without_key "新竹縣" =
    mkIo [] (Throw (Error "伺服器設定錯誤: 請在 .env 檔案中設定 CWA_API_KEY")) ∧
  (weather_path "新竹縣", WeatherHandler "新竹縣") ∈ routes ∧
  ∃ msg,
    run_handler Sample.env_without_key (WeatherHandler "新竹縣") =
      mkIo [EvConsoleError ["取得 " +:+ "新竹縣" +:+ " 天氣資料失敗:"; msg]]
           (Normal {| statusCode := 500;
                      body := ErrorBody "伺服器設定錯誤" msg |}) ∧
    Js.includes "CWA_API_KEY" msg = true.
Proof.
  apply (missing_key_fails_fast Sample.env_without_key "新竹縣");
    [apply list_elem_of_here | reflexivity].
Defined.

(** C4.  For every configured city, when the upstream answer parses but has
    no location block named after the city, [getWeatherByLocation] throws
    the not-found error (after its one outbound call), and the route
    answers 500 with [{error: "伺服器錯誤", message}]. *)
Theorem missing_locality_not_found env city data :
  city ∈ TAIWAN_CITIES →
  is_set (CWA_API_KEY env) = true →
  upstream env (forecast_request env city) = Normal data →
  (∀ loc, loc ∈ Cwa.location (Cwa.records data) → Cwa.locationName loc ≠ city) →
  getWeatherByLocation env city =
    mkIo [EvHttpGet (forecast_request env city)]
         (Throw (Error ("查無資料: 無法取得 " +:+ city +:+ " 天氣資料"))) ∧
  (weather_path city, WeatherHandler city) ∈ routes ∧
  result (run_handler env (WeatherHandler city)) =
    Normal {| statusCode := 500;
              body := ErrorBody "伺服器錯誤"
                        ("無法取得 " +:+ city +:+ " 天氣資料，請稍後再試") |}.
Proof.
  intros Hcity Hkey Hup Hnone.
  pose proof (getWeatherByLocation_not_found _ _ _ Hkey Hup Hnone) as Hget.
  split_and!; [done|by apply route_registered|].
  simpl. rewrite (handleWeatherRequest_catch _ _ (Error ("查無資料: 無法取得 " +:+ city +:+ " 天氣資料")))
    by by rewrite Hget.
  cbn [result]. rewrite on_error_result. cbn [message response Error].
  assert (Js.includes "CWA_API_KEY" ("查無資料: 無法取得 " +:+ city +:+ " 天氣資料") = false)
    as ->; [|done].
  clear Hup Hnone Hget. revert city Hcity. by apply configured_cases.
Qed.

Lemma missing_locality_not_found_witness :
  getWeatherByLocation Sample.env_other "新竹縣" =
    mkIo [EvHttpGet (forecast_request Sample.env_other "新竹縣")]
         (Throw (Error ("查無資料: 無法取得 " +:+ "新竹縣" +:+ " 天氣資料"))) ∧
  (weather_path "新竹縣", WeatherHandler "新竹縣") ∈ routes ∧
  result (run_handler Sample.env_other (WeatherHandler "新竹縣")) =
    Normal {| statusCode := 500;
              body := ErrorBody "伺服器錯誤"
                        ("無法取得 " +:+ "新竹縣" +:+ " 天氣資料，請稍後再試") |}.
Proof.
  apply (missing_locality_not_found Sample.env_other "新竹縣" Sample.other_payload);
    [apply list_elem_of_here | reflexivity | reflexivity |].
  intros loc Hin. apply list_elem_of_singleton in Hin. rewrite Hin. discriminate.
Defined.

(** ToBoolean on numbers and strings. *)
Example truthy_samples :
  truthy (Some (JNum 0)) = false ∧ truthy (Some (JNum (-0))) = false ∧
  truthy (Some (JNum PrimFloat.nan)) = false ∧ truthy (Some (JNum 1.5)) = true ∧
  truthy (Some (JStr "")) = false ∧ truthy (Some (JStr "0")) = true ∧
  truthy None = false.
Proof. by vm_compute. Qed.

Lemma or_else_truthy v fallback :
  truthy (Some v) = true → or_else (Some v) fallback = v.
Proof. unfold or_else. by intros ->. Qed.

Lemma or_else_falsy a fallback :
  truthy a = false → or_else a fallback = JStr fallback.
Proof. unfold or_else. destruct a; [by intros ->|done]. Qed.

(** The specification's own example: status 503 with the body
    [{message: "service unavailable"}]. *)
Example upstream_error_503 :
  handleWeatherRequest
    (Sample.env_failing (Sample.failure 503 "503" Sample.unavailable)) "新竹縣" =
  mkIo [EvHttpGet (forecast_request (Sample.env_failing
                     (Sample.failure 503 "503" Sample.unavailable)) "新竹縣");
        EvConsoleError ["取得 新竹縣 天氣資料失敗:";
                        "Request failed with status code 503"]]
       (Normal {| statusCode := 503;
                  body := UpstreamErrorBody "CWA API 錯誤"
                            (JStr "service unavailable") Sample.unavailable |}).
Proof. reflexivity. Qed.

(** C2 as stated fails on a body whose [message] is present but empty: the
    claim gives [message: ""], the handler gives the fallback text. *)
Lemma upstream_error_empty_message :
  result (handleWeatherRequest
            (Sample.env_failing (Sample.failure 503 "503" Sample.empty_message))
            "新竹縣") =
    Normal {| statusCode := 503;
              body := UpstreamErrorBody "CWA API 錯誤"
                        (JStr "無法取得天氣資料") Sample.empty_message |} ∧
  result (handleWeatherRequest
            (Sample.env_failing (Sample.failure 503 "503" Sample.empty_message))
            "新竹縣") ≠
    Normal (stated_upstream_response 503 Sample.empty_message).
Proof. split; [reflexivity|]. vm_compute. discriminate. Qed.

(** On the body [null] the [catch] block itself throws, reading
    [error.response.data.message]: no response is written. *)
Example upstream_error_null_body :
  result (handleWeatherRequest
            (Sample.env_failing (Sample.failure 502 "502" JNull)) "新竹縣") =
  Throw (TypeError "null" "message").
Proof. reflexivity. Qed.

(** C2, amended.  When the upstream call fails with an error that carries a
    response of status [S] and a body [B] other than [null], and whose
    message does not contain "CWA_API_KEY", the route answers with status
    [S] and the body [{error: "CWA API 錯誤", message, details: B}], where
    [message] is [B.message] when that is truthy and the fallback text
    otherwise (absent, or falsy such as the empty string). *)
Theorem upstream_error_response env locationName error S B :
  is_set (CWA_API_KEY env) = true →
  upstream env (forecast_request env locationName) = Throw error →
  response error = Some {| status := S; data := B |} →
  Js.includes "CWA_API_KEY" (message error) = false →
  B ≠ JNull →
  ∃ msg,
    result (handleWeatherRequest env locationName) =
      Normal {| statusCode := S;
                body := UpstreamErrorBody "CWA API 錯誤" msg B |} ∧
    (∀ v, message_property B = Some v → truthy (Some v) = true → msg = v) ∧
    (truthy (message_property B) = false → msg = JStr "無法取得天氣資料").
Proof.
  intros Hkey Hup Hresp Hmsg HB.
  exists (or_else (message_property B) "無法取得天氣資料"). split_and!.
  - rewrite (handleWeatherRequest_catch _ _ error)
      by by rewrite (getWeatherByLocation_rejected _ _ _ Hkey Hup).
    cbn [result]. rewrite on_error_result, Hmsg, Hresp, upstream_reply_result.
    cbn [data status]. by destruct B.
  - intros v -> Hv. by apply or_else_truthy.
  - apply or_else_falsy.
Qed.

Lemma upstream_error_response_witness :
  ∃ msg,
    result (handleWeatherRequest
              (Sample.env_failing (Sample.failure 503 "503" Sample.unavailable))
              "新竹縣") =
      Normal {| statusCode := 503;
                body := UpstreamErrorBody "CWA API 錯誤" msg Sample.unavailable |} ∧
    (∀ v, message_property Sample.unavailable = Some v →
          truthy (Some v) = true → msg = v) ∧
    (truthy (message_property Sample.unavailable) = false →
     msg = JStr "無法取得天氣資料").
Proof.
  apply (upstream_error_response
           (Sample.env_failing (Sample.failure 503 "503" Sample.unavailable))
           "新竹縣" (Sample.failure 503 "503" Sample.unavailable) 503
           Sample.unavailable);
    [reflexivity | reflexivity | reflexivity | reflexivity | discriminate].
Defined.

(** C10 (the code departs from the claim).  An error that carries a
    response, and whose message has no "CWA_API_KEY", belongs to the
    upstream class; when the body of that response is [null] the [catch]
    block does not write the upstream-error response: reading
    [error.response.data.message] throws, and the request, after its
    outbound call and its console line, is left without a response. *)
Theorem null_body_is_left_unanswered :
  Js.includes "CWA_API_KEY" (message (Sample.failure 502 "502" JNull)) = false ∧
  response (Sample.failure 502 "502" JNull) = Some {| status := 502; data := JNull |} ∧
  handleWeatherRequest (Sample.env_failing (Sample.failure 502 "502" JNull)) "新竹縣" =
    mkIo [EvHttpGet (forecast_request
                       (Sample.env_failing (Sample.failure 502 "502" JNull))
                       "新竹縣");
          EvConsoleError ["取得 新竹縣 天氣資料失敗:";
                          "Request failed with status code 502"]]
         (Throw (TypeError "null" "message")).
Proof. split_and!; reflexivity. Qed.

(** X15.  The replies of the [catch] block, for every error except one
    whose response has the body [null].  The reply is the configuration
    reply (500, "伺服器設定錯誤", the error's own message) exactly when the
    message contains "CWA_API_KEY"; otherwise it is the upstream reply (the
    upstream's status, "CWA API 錯誤", [B.message] when truthy and the
    fallback text otherwise, the body [B] as details) exactly when the
    error carries a response; otherwise it is the generic reply (500,
    "伺服器錯誤", a fixed text around the city name). *)
Theorem catch_block_replies locationName error :
  (∀ resp, response error = Some resp → data resp ≠ JNull) →
  ∃ r,
    result (on_error locationName error) = Normal r ∧
    ((∃ m, r = {| statusCode := 500; body := ErrorBody "伺服器設定錯誤" m |})
       ↔ Js.includes "CWA_API_KEY" (message error) = true) ∧
    ((∃ S m d, r = {| statusCode := S; body := UpstreamErrorBody "CWA API 錯誤" m d |})
       ↔ Js.includes "CWA_API_KEY" (message error) = false
         ∧ is_Some (response error)) ∧
    ((∃ m, r = {| statusCode := 500; body := ErrorBody "伺服器錯誤" m |})
       ↔ Js.includes "CWA_API_KEY" (message error) = false
         ∧ response error = None) ∧
    (Js.includes "CWA_API_KEY" (message error) = true →
     r = {| statusCode := 500;
            body := ErrorBody "伺服器設定錯誤" (message error) |}) ∧
    (Js.includes "CWA_API_KEY" (message error) = false →
     ∀ resp, response error = Some resp →
       ∃ msg,
         r = {| statusCode := status resp;
                body := UpstreamErrorBody "CWA API 錯誤" msg (data resp) |} ∧
         (∀ v, message_property (data resp) = Some v →
               truthy (Some v) = true → msg = v) ∧
         (truthy (message_property (data resp)) = false →
          msg = JStr "無法取得天氣資料")) ∧
    (Js.includes "CWA_API_KEY" (message error) = false →
     response error = None →
     r = {| statusCode := 500;
            body := ErrorBody "伺服器錯誤"
                      ("無法取得 " +:+ locationName +:+ " 天氣資料，請稍後再試") |}).
Proof.
  intros Hbody. rewrite on_error_result.
  destruct (Js.includes "CWA_API_KEY" (message error)) eqn:Hinc.
  - eexists. split; [done|]. split_and!; try done.
    + split; [done|]. intros _. by eexists.
    + split; [by intros (? & ? & ? & [=])|by intros [[=] _]].
    + split; [by intros [? [=]]|by intros [[=] _]].
  - destruct (response error) as [resp|] eqn:Hresp.
    + specialize (Hbody resp eq_refl). rewrite upstream_reply_result.
      exists {| statusCode := status resp;
                body := UpstreamErrorBody "CWA API 錯誤"
                          (or_else (message_property (data resp)) "無法取得天氣資料")
                          (data resp) |}.
      split; [by destruct (data resp)|]. split_and!; try done.
      * split; [by intros [? [=]]|done].
      * split; [done|]. intros _. by do 3 eexists.
      * split; [by intros [? [=]]|by intros [_ [=]]].
      * intros _ resp' [= <-]. eexists. split_and!; [done| |].
        -- intros v -> Hv. by apply or_else_truthy.
        -- apply or_else_falsy.
    + eexists. split; [done|]. split_and!; try done.
      * split; [by intros [? [=]]|done].
      * split; [by intros (? & ? & ? & [=])|]. by intros [_ [? [=]]].
      * split; [done|]. intros _. by eexists.
Qed.

Lemma catch_block_replies_witness :
  ∃ r,
    result (on_error "新竹縣" (Sample.failure 503 "503" Sample.unavailable)) = Normal r ∧
    ((∃ m, r = {| statusCode := 500; body := ErrorBody "伺服器設定錯誤" m |})
       ↔ Js.includes "CWA_API_KEY"
           (message (Sample.failure 503 "503" Sample.unavailable)) = true) ∧
    ((∃ S m d, r = {| statusCode := S; body := UpstreamErrorBody "CWA API 錯誤" m d |})
       ↔ Js.includes "CWA_API_KEY"
           (message (Sample.failure 503 "503" Sample.unavailable)) = false
         ∧ is_Some (response (Sample.failure 503 "503" Sample.unavailable))) ∧
    ((∃ m, r = {| statusCode := 500; body := ErrorBody "伺服器錯誤" m |})
       ↔ Js.includes "CWA_API_KEY"
           (message (Sample.failure 503 "503" Sample.unavailable)) = false
         ∧ response (Sample.failure 503 "503" Sample.unavailable) = None) ∧
    (Js.includes "CWA_API_KEY"
       (message (Sample.failure 503 "503" Sample.unavailable)) = true →
     r = {| statusCode := 500;
            body := ErrorBody "伺服器設定錯誤"
                      (message (Sample.failure 503 "503" Sample.unavailable)) |}) ∧
    (Js.includes "CWA_API_KEY"
       (message (Sample.failure 503 "503" Sample.unavailable)) = false →
     ∀ resp, response (Sample.failure 503 "503" Sample.unavailable) = Some resp →
       ∃ msg,
         r = {| statusCode := status resp;
                body := UpstreamErrorBody "CWA API 錯誤" msg (data resp) |} ∧
         (∀ v, message_property (data resp) = Some v →
               truthy (Some v) = true → msg = v) ∧
         (truthy (message_property (data resp)) = false →
          msg = JStr "無法取得天氣資料")) ∧
    (Js.includes "CWA_API_KEY"
       (message (Sample.failure 503 "503" Sample.unavailable)) = false →
     response (Sample.failure 503 "503" Sample.unavailable) = None →
     r = {| statusCode := 500;
            body := ErrorBody "伺服器錯誤"
                      ("無法取得 " +:+ "新竹縣" +:+ " 天氣資料，請稍後再試") |}).
Proof.
  apply (catch_block_replies "新竹縣" (Sample.failure 503 "503" Sample.unavailable)).
  intros resp H. injection H as <-. discriminate.
Defined.

(** The not-found error of a configured city reaches the generic branch, and
    its message is not part of the reply. *)
Lemma not_found_message_dropped city :
  city ∈ TAIWAN_CITIES →
  Js.includes ("查無資料: 無法取得 " +:+ city +:+ " 天氣資料")
              ("無法取得 " +:+ city +:+ " 天氣資料，請稍後再試") = false.
Proof. revert city. by apply configured_cases. Qed.

(** Two errors that reach the generic branch get the same reply. *)
Corollary generic_reply_ignores_error locationName error1 error2 :
  Js.includes "CWA_API_KEY" (message error1) = false → response error1 = None →
  Js.includes "CWA_API_KEY" (message error2) = false → response error2 = None →
  result (on_error locationName error1) = result (on_error locationName error2).
Proof. intros H1 R1 H2 R2. by rewrite !on_error_result, H1, H2, R1, R2. Qed.

(** ** [toISOString] and the calendar *)

Module JsDateFacts.
Import JsDate.

Lemma DaysInYear_cases y : DaysInYear y = 365 ∨ DaysInYear y = 366.
Proof. unfold DaysInYear. repeat case_match; auto. Qed.

Lemma DayFromYear_succ y : DayFromYear (y + 1) = DayFromYear y + DaysInYear y.
Proof.
  unfold DayFromYear, DaysInYear.
  repeat match goal with
         | |- context [?a =? ?b] => destruct (Z.eqb_spec a b)
         end; simpl; Z.div_mod_to_equations; lia.
Qed.

Lemma YearFromDay_spec d :
  DayFromYear (YearFromDay d) ≤ d < DayFromYear (YearFromDay d + 1).
Proof.
  unfold YearFromDay.
  set (y := 1970 + 400 * d / 146097).
  assert (Hy : 146097 * (y - 1970) ≤ 400 * d < 146097 * (y - 1970) + 146097).
  { unfold y. Z.div_mod_to_equations. lia. }
  clearbody y.
  destruct (Z.ltb_spec d (DayFromYear y)).
  - replace (y - 1 + 1) with y by lia. split; [|lia].
    unfold DayFromYear in *. Z.div_mod_to_equations. lia.
  - destruct (Z.leb_spec (DayFromYear (y + 1)) d); [|lia].
    split; [lia|]. unfold DayFromYear in *. Z.div_mod_to_equations. lia.
Qed.

(** ECMA-262 defines YearFromTime as the largest year that starts no later
    than the time: [YearFromDay] computes it. *)
Lemma YearFromDay_largest d y :
  DayFromYear y ≤ d → y ≤ YearFromDay d.
Proof.
  intros Hy. pose proof (YearFromDay_spec d) as [_ Hd].
  destruct (Z.le_gt_cases y (YearFromDay d)) as [|Hgt]; [done|].
  assert (DayFromYear (YearFromDay d + 1) ≤ DayFromYear y); [|lia].
  unfold DayFromYear. Z.div_mod_to_equations. lia.
Qed.

Lemma InLeapYear_cases t : InLeapYear t = 0 ∨ InLeapYear t = 1.
Proof. unfold InLeapYear. case_match; auto. Qed.

Lemma DayWithinYear_range t : 0 ≤ DayWithinYear t < 365 + InLeapYear t.
Proof.
  unfold DayWithinYear, InLeapYear, YearFromTime.
  pose proof (YearFromDay_spec (Day t)) as H.
  rewrite DayFromYear_succ in H.
  destruct (DaysInYear_cases (YearFromDay (Day t))) as [Hd|Hd];
    rewrite Hd in *; simpl; lia.
Qed.

Lemma month_of_spec leap dwy :
  leap = 0 ∨ leap = 1 → 0 ≤ dwy < 365 + leap →
  0 ≤ month_of leap dwy ≤ 11 ∧
  month_start leap (month_of leap dwy) ≤ dwy
    < month_start leap (month_of leap dwy + 1).
Proof.
  intros Hleap Hd. unfold month_of.
  repeat match goal with
         | |- context [?a <? ?b] => destruct (Z.ltb_spec a b)
         end; simpl; lia.
Qed.

(** Digits written and read back. *)
Lemma digit_value_digit n : digit_value (digit n) = Some (n mod 10).
Proof.
  unfold digit_value, digit.
  pose proof (Z.mod_pos_bound n 10 ltac:(lia)) as Hn.
  rewrite N_ascii_embedding by lia.
  rewrite (proj2 (andb_true_iff _ _)) by (split; apply N.leb_le; lia).
  f_equal. lia.
Qed.

Lemma digit_not c : digit_value c = None → ∀ n, Ascii.eqb c (digit n) = false.
Proof.
  intros Hc n. destruct (Ascii.eqb_spec c (digit n)) as [->|]; [|done].
  by rewrite digit_value_digit in Hc.
Qed.

Lemma digits_snoc w acc s :
  digits (S w) acc s =
  '(v, s') ← digits w acc s;
  match s' with
  | "" => None
  | String c s'' => d ← digit_value c; Some (10 * v + d, s'')
  end.
Proof.
  revert acc s. induction w as [|w IH]; intros acc s.
  - simpl. destruct s as [|c s]; [done|]. by destruct (digit_value c).
  - change (digits (S (S w)) acc s) with
      (match s with
       | "" => None
       | String c s' => v ← digit_value c; digits (S w) (10 * acc + v) s'
       end).
    destruct s as [|c s]; [done|]. simpl digits at 2.
    destruct (digit_value c) as [v|]; [|done]. simpl. apply IH.
Qed.

Lemma digits_padded w n acc rest :
  0 ≤ n < 10 ^ Z.of_nat w →
  digits w acc (padded w n rest) = Some (acc * 10 ^ Z.of_nat w + n, rest).
Proof.
  revert n rest. induction w as [|w IH]; intros n rest Hn.
  - simpl in *. f_equal. f_equal. lia.
  - rewrite Nat2Z.inj_succ, Z.pow_succ_r in * by lia.
    rewrite digits_snoc. cbn [padded].
    rewrite IH by (Z.div_mod_to_equations; lia). simpl.
    rewrite digit_value_digit. simpl. f_equal. f_equal.
    Z.div_mod_to_equations. lia.
Qed.

Lemma padded_head w n rest :
  ∃ m s, padded (S w) n rest = String (digit m) s.
Proof.
  revert n rest. induction w as [|w IH]; intros n rest.
  - by exists n, rest.
  - cbn [padded]. apply (IH (n / 10) (String (digit n) rest)).
Qed.

Lemma parse_year_string y rest :
  -999999 ≤ y ≤ 999999 → parse_year (year_string y rest) = Some (y, rest).
Proof.
  intros Hy. unfold year_string.
  destruct (Z.leb_spec 0 y); [destruct (Z.leb_spec y 9999)|]; simpl andb; cbv iota.
  - destruct (padded_head 3 y rest) as (m & s & Hs).
    unfold parse_year. rewrite Hs.
    rewrite !(Ascii.eqb_sym (digit m)), !digit_not by done.
    rewrite <- Hs, digits_padded by (simpl; lia). do 2 f_equal.
  - rewrite (proj2 (Z.ltb_ge y 0)) by lia. unfold parse_year.
    rewrite Ascii.eqb_refl, digits_padded by (simpl; lia). do 2 f_equal.
  - rewrite (proj2 (Z.ltb_lt y 0)) by lia. unfold parse_year.
    change (Ascii.eqb "-" "+") with false. rewrite Ascii.eqb_refl. cbv iota.
    rewrite digits_padded by (simpl; lia). simpl.
    replace (0 * 10 ^ Z.of_nat 6 + - y) with (- y) by lia.
    rewrite (proj2 (Z.eqb_neq (- y) 0)) by lia. do 2 f_equal. lia.
Qed.

Local Arguments digits : simpl never.
Local Arguments padded : simpl never.

Lemma read_fields_format y mo d h mi sec ms :
  -999999 ≤ y ≤ 999999 → 0 ≤ mo < 100 → 0 ≤ d < 100 → 0 ≤ h < 100 →
  0 ≤ mi < 100 → 0 ≤ sec < 100 → 0 ≤ ms < 1000 →
  read_fields (format y mo d h mi sec ms) =
    Some {| year := y; month := mo; day := d; hour := h; minute := mi;
            second := sec; millisecond := ms |}.
Proof.
  intros Hy Hmo Hd Hh Hmi Hsec Hms. unfold read_fields, format.
  rewrite parse_year_string by done. simpl.
  repeat (rewrite digits_padded by (simpl; lia); simpl).
  do 2 f_equal; lia.
Qed.

Lemma YearFromTime_range t :
  - maxTime ≤ t ≤ maxTime → -271821 ≤ YearFromTime t ≤ 275760.
Proof.
  intros Ht. unfold YearFromTime.
  pose proof (YearFromDay_spec (Day t)) as [Hlo Hhi].
  assert (Hd : -100000000 ≤ Day t ≤ 100000000).
  { unfold Day, msPerDay, maxTime in *. Z.div_mod_to_equations. lia. }
  revert Hlo Hhi. generalize (YearFromDay (Day t)). intros y.
  unfold DayFromYear. intros Hlo Hhi. Z.div_mod_to_equations. lia.
Qed.

Lemma time_recombined t :
  Day t * msPerDay
    + MakeTime (HourFromTime t) (MinFromTime t) (SecFromTime t) (msFromTime t) = t.
Proof.
  unfold Day, msPerDay, MakeTime, HourFromTime, MinFromTime, SecFromTime, msFromTime.
  Z.div_mod_to_equations. lia.
Qed.

Lemma time_of_day_range t :
  0 ≤ HourFromTime t ≤ 23 ∧ 0 ≤ MinFromTime t ≤ 59 ∧
  0 ≤ SecFromTime t ≤ 59 ∧ 0 ≤ msFromTime t ≤ 999.
Proof.
  unfold HourFromTime, MinFromTime, SecFromTime, msFromTime.
  Z.div_mod_to_equations. lia.
Qed.

Lemma month_start_bounds leap m :
  leap = 0 ∨ leap = 1 → 0 ≤ m ≤ 11 →
  28 ≤ month_start leap (m + 1) - month_start leap m ≤ 31.
Proof.
  intros Hleap Hm.
  assert (m = 0 ∨ m = 1 ∨ m = 2 ∨ m = 3 ∨ m = 4 ∨ m = 5 ∨ m = 6 ∨ m = 7
          ∨ m = 8 ∨ m = 9 ∨ m = 10 ∨ m = 11) as Hcases by lia.
  destruct_or!; subst m; simpl; lia.
Qed.

(** The text [toISOString] writes is read back as the same time value. *)
Lemma parse_toISOString t :
  - maxTime ≤ t ≤ maxTime → parse (toISOString t) = Some t.
Proof.
  intros Ht. unfold parse, toISOString.
  pose proof (YearFromTime_range t Ht) as Hy.
  pose proof (DayWithinYear_range t) as Hdwy.
  pose proof (InLeapYear_cases t) as Hleap.
  pose proof (month_of_spec _ _ Hleap Hdwy) as [Hm Hstart].
  fold (MonthFromTime t) in Hm, Hstart.
  pose proof (month_start_bounds _ _ Hleap Hm) as Hlen.
  pose proof (time_of_day_range t) as (Hh & Hmi & Hsec & Hms).
  assert (Hdate : 1 ≤ DateFromTime t
                  ≤ month_start (InLeapYear t) (MonthFromTime t + 1)
                    - month_start (InLeapYear t) (MonthFromTime t)).
  { unfold DateFromTime. lia. }
  rewrite read_fields_format by lia. simpl.
  unfold time_value. cbn [year month day hour minute second millisecond].
  replace (MonthFromTime t + 1 - 1) with (MonthFromTime t) by lia.
  unfold days_in_month. fold (InLeapYear t).
  rewrite (proj2 (andb_true_iff _ _)) by (split; apply Z.leb_le; lia).
  rewrite (proj2 (andb_true_iff _ _)) by (split; apply Z.leb_le; lia).
  rewrite !(proj2 (Z.leb_le _ _)) by lia. cbn [negb andb].
  assert (MakeDay (YearFromTime t) (MonthFromTime t) (DateFromTime t) = Day t) as ->.
  { unfold MakeDay. fold (InLeapYear t). unfold DateFromTime, DayWithinYear. lia. }
  rewrite time_recombined.
  by rewrite (proj2 (andb_true_iff _ _)) by (split; apply Z.leb_le; lia).
Qed.
End JsDateFacts.

(** ** The application: claims C7, C8 and C9 *)

Section ExpressFacts.
Variable path_match : string → string → bool.
Variables cors express_json express_urlencoded : Request → Middleware.

(** A request the middlewares pass on goes to the first route that takes
    it. *)
Lemma app_route env req h :
  middlewares cors express_json express_urlencoded req = Next →
  find_route path_match req = Some h →
  app path_match cors express_json express_urlencoded env req = run_handler env h.
Proof. intros Hmw Hroute. unfold app. by rewrite Hmw, Hroute. Qed.

Lemma find_route_unmatched req :
  Forall (λ r, path_match (fst r) (path req) = false) routes →
  find_route path_match req = None.
Proof.
  intros Hall. unfold find_route. destruct (serves (method req)); [|done].
  assert (List.find (λ r, path_match (fst r) (path req)) routes = None) as ->; [|done].
  induction Hall as [|r rs Hr _ IH]; [done|]. simpl. by rewrite Hr.
Qed.

Lemma find_route_health req :
  method req = GET →
  path_match "/" (path req) = false →
  path_match "/api/health" (path req) = true →
  find_route path_match req = Some HealthHandler.
Proof.
  intros Hm Hroot Hhealth. unfold find_route, routes.
  rewrite Hm. simpl. by rewrite Hroot, Hhealth.
Qed.

(** A GET request that reaches the route of a city, and no route registered
    before it, is answered by [handleWeatherRequest] for that city. *)
Lemma app_weather_route env req city :
  middlewares cors express_json express_urlencoded req = Next →
  method req = GET →
  List.find (λ r, path_match (fst r) (path req)) routes
    = Some (weather_path city, WeatherHandler city) →
  app path_match cors express_json express_urlencoded env req =
    handleWeatherRequest env city.
Proof.
  intros Hmw Hm Hfind. rewrite (app_route _ _ (WeatherHandler city)); [done..|].
  unfold find_route. by rewrite Hm, Hfind.
Qed.

(** A middleware that forwards an error reaches the error-handling
    middleware, which answers 500 with the error's message. *)
Lemma app_error env req err :
  middlewares cors express_json express_urlencoded req = NextError err →
  result (app path_match cors express_json express_urlencoded env req) =
    Normal {| statusCode := 500; body := ErrorBody "伺服器錯誤" (message err) |}.
Proof. intros Hmw. unfold app. by rewrite Hmw. Qed.


(** C8, amended.  A request that the three library middlewares pass on to
    the routes and whose path matches none of the registered routes is
    answered 404 with [{error: "找不到此路徑"}]. *)
Theorem unmatched_path_404 env req :
  middlewares cors express_json express_urlencoded req = Next →
  Forall (λ r, path_match (fst r) (path req) = false) routes →
  app path_match cors express_json express_urlencoded env req =
    mkIo [] (Normal {| statusCode := 404; body := NotFoundBody "找不到此路徑" |}).
Proof.
  intros Hmw Hall. unfold app.
  by rewrite Hmw, find_route_unmatched.
Qed.
End ExpressFacts.


Example health_sample :
  result (plain_app Sample.env_without_key
            {| method := GET; path := "/api/health"; headers := []; payload := "" |}) =
  Normal {| statusCode := 200; body := HealthBody "OK" "2026-11-02T08:00:00.123Z" |}.
Proof. reflexivity. Qed.

Lemma unmatched_path_404_witness :
  plain_app Sample.env
    {| method := GET; path := "/api/weather/unknown"; headers := []; payload := "" |} =
  mkIo [] (Normal {| statusCode := 404; body := NotFoundBody "找不到此路徑" |}).
Proof.
  apply (unmatched_path_404 String.eqb pass pass pass Sample.env
           {| method := GET; path := "/api/weather/unknown";
              headers := []; payload := "" |});
    [reflexivity | repeat constructor].
Defined.

(** C8 as stated fails on a preflight request: the path of
    [OPTIONS /api/weather/unknown] matches no registered route, yet
    [cors()], the first middleware of the stack, answers it 204 with no
    body, whatever the routes and the later middlewares are; the 404
    handler is not reached. *)
Lemma options_preflight_not_404 :
  Forall (λ r, String.eqb (fst r) (path preflight_unknown) = false) routes ∧
  (∀ path_match express_json express_urlencoded env,
     app path_match cors_default express_json express_urlencoded env preflight_unknown =
       mkIo [] (Normal {| statusCode := 204; body := EmptyBody |})) ∧
  result (app String.eqb cors_default pass pass Sample.env preflight_unknown) ≠
    Normal {| statusCode := 404; body := NotFoundBody "找不到此路徑" |}.
Proof. split_and!; [repeat constructor|done|discriminate]. Qed.

(** With [cors()] as it is, every request other than a preflight that the
    two body parsers pass on and whose path matches no route gets the 404. *)
Lemma unmatched_path_404_cors path_match express_json express_urlencoded env req :
  method req ≠ OPTIONS →
  express_json req = Next → express_urlencoded req = Next →
  Forall (λ r, path_match (fst r) (path req) = false) routes →
  app path_match cors_default express_json express_urlencoded env req =
    mkIo [] (Normal {| statusCode := 404; body := NotFoundBody "找不到此路徑" |}).
Proof.
  intros Hm Hjson Hurl Hall. unfold app, middlewares, cors_default.
  destruct (method req); try done; by rewrite Hjson, Hurl, find_route_unmatched.
Qed.

(** The discovery document. *)

Lemma endpoints_fold_other (m : gmap string string) cities city :
  city ∉ cities →
  foldl (λ endpoints c, <[c := "/api/weather/" +:+ slug c]> endpoints) m cities
    !! city = m !! city.
Proof.
  revert m. induction cities as [|c cities IH]; intros m Hnot; [done|].
  apply not_elem_of_cons in Hnot as [Hne Hnot]. simpl.
  by rewrite IH, lookup_insert_ne.
Qed.

Lemma endpoints_fold_city (m : gmap string string) cities city :
  city ∈ cities →
  foldl (λ endpoints c, <[c := "/api/weather/" +:+ slug c]> endpoints) m cities
    !! city = Some (weather_path city).
Proof.
  revert m. induction cities as [|c cities IH]; intros m Hin.
  { by apply elem_of_nil in Hin. }
  simpl. destruct (decide (city ∈ cities)) as [Hlater|Hnot]; [by apply IH|].
  apply elem_of_cons in Hin as [->|?]; [|done].
  by rewrite endpoints_fold_other, lookup_insert_eq.
Qed.

Lemma endpoints_of_city cities city :
  city ∈ cities → endpoints_of cities !! city = Some (weather_path city).
Proof. apply endpoints_fold_city. Qed.

(** C9.  For every configured city the discovery document of [GET /] lists,
    under the city's name, the very path its weather route is registered
    at: both sites derive the slug in the same way (縣 replaced by county,
    市 by city, then lower case). *)
Theorem discovery_matches_routes city :
  city ∈ TAIWAN_CITIES →
  ∃ msg endpoints,
    root_handler = mkIo [] (Normal {| statusCode := 200;
                                      body := DiscoveryBody msg endpoints |}) ∧
    endpoints !! city = Some (weather_path city) ∧
    (weather_path city, WeatherHandler city) ∈ routes.
Proof.
  intros Hin. exists "歡迎使用 CWA 天氣預報 API", (endpoints_of TAIWAN_CITIES).
  split_and!; [done|by apply endpoints_of_city|by apply route_registered].
Qed.

Lemma discovery_matches_routes_witness :
  ∃ msg endpoints,
    root_handler = mkIo [] (Normal {| statusCode := 200;
                                      body := DiscoveryBody msg endpoints |}) ∧
    endpoints !! "新竹縣" = Some (weather_path "新竹縣") ∧
    (weather_path "新竹縣", WeatherHandler "新竹縣") ∈ routes.
Proof.
  apply (discovery_matches_routes "新竹縣"). apply list_elem_of_here.
Defined.

(** The paths of the four routes. *)
Example weather_paths :
  weather_path <$> TAIWAN_CITIES =
  ["/api/weather/新竹county"; "/api/weather/桃園city";
   "/api/weather/新竹city"; "/api/weather/苗栗county"].
Proof. reflexivity. Qed.

(** * Further properties of [server.js] *)

(** ** When the normalizer throws *)

Lemma forecast_at_Throw elements i e :
  forecast_at elements i = Throw e →
  (elements = [] ∧ e = TypeError "undefined" "time") ∨
  (∃ first rest, elements = first :: rest ∧
     ((Cwa.time first !! i = None ∧ e = TypeError "undefined" "startTime") ∨
      (forallb (has_slot i) elements = false ∧ e = TypeError "undefined" "parameter"))).
Proof.
  unfold forecast_at. destruct elements as [|first rest].
  { intros [= <-]. by left. }
  cbn [index lookup list_lookup mbind completion_bind]. intros H.
  right. exists first, rest. split; [done|]. revert H.
  unfold index. destruct (Cwa.time first !! i) as [slot|] eqn:Hslot.
  - cbn [mbind completion_bind]. fold (seed slot). rewrite forEach_elements_eq.
    destruct (forallb (has_slot i) (first :: rest)); [done|].
    intros [= <-]. by right.
  - intros [= <-]. by left.
Qed.

Lemma for_slots_Throw elements n i acc e :
  for_slots elements n i acc = Throw e →
  ∃ j, (j < n)%nat ∧ forecast_at elements (i + j) = Throw e.
Proof.
  revert i acc. induction n as [|n IH]; intros i acc; simpl; [done|].
  destruct (forecast_at elements i) as [f|e'] eqn:Hat; simpl.
  - intros (j & Hj & Hthrow)%IH. exists (S j). split; [lia|].
    by rewrite <- Nat.add_succ_comm.
  - intros [= <-]. exists 0%nat. split; [lia|]. by rewrite Nat.add_0_r.
Qed.

Lemma forallb_has_slot_false i (elements : list Cwa.WeatherElement) :
  forallb (has_slot i) elements = false →
  Exists (λ el, (length (Cwa.time el) ≤ i)%nat) elements.
Proof.
  induction elements as [|el elements IH]; [done|]. simpl.
  destruct (has_slot i el) eqn:Hel; simpl.
  - intros H. right. by apply IH.
  - intros _. left. by apply has_slot_false.
Qed.

(** What a throw of the normalizer tells about the block. *)
Lemma normalize_Throw_inv locationName recs block e :
  normalize locationName recs block = Throw e →
  (Cwa.weatherElement block = [] ∧ e = TypeError "undefined" "time") ∨
  (∃ first rest,
     Cwa.weatherElement block = first :: rest ∧
     Exists (λ el, (length (Cwa.time el) < length (Cwa.time first))%nat) rest ∧
     e = TypeError "undefined" "parameter").
Proof.
  unfold normalize.
  destruct (Cwa.weatherElement block) as [|first rest] eqn:Hel.
  { intros [= <-]. by left. }
  cbn [index lookup list_lookup mbind completion_bind].
  destruct (for_slots (first :: rest) (length (Cwa.time first)) 0 [])
    as [fs|e''] eqn:Hfs; [done|].
  intros [= <-]. right. exists first, rest. split; [done|].
  apply for_slots_Throw in Hfs as (j & Hj & Hat). cbn [Nat.add] in Hat.
  apply forecast_at_Throw in Hat as [[? _]|(? & ? & [= <- <-] & Hcase)]; [done|].
  destruct Hcase as [[Hnone _]|[Hall ->]].
  { apply lookup_ge_None_1 in Hnone. lia. }
  split; [|done]. simpl in Hall.
  assert (has_slot j first = true) as Hfirst
    by by apply bool_decide_eq_true.
  rewrite Hfirst in Hall. simpl in Hall.
  apply forallb_has_slot_false in Hall.
  eapply Exists_impl; [exact Hall|]. simpl. intros el ?. lia.
Qed.

(** A block that normalizes has no element shorter than its first. *)
Lemma normalize_Normal_no_short locationName recs block wd first rest :
  normalize locationName recs block = Normal wd →
  Cwa.weatherElement block = first :: rest →
  ¬ Exists (λ el, (length (Cwa.time el) < length (Cwa.time first))%nat) rest.
Proof.
  intros (first' & rest' & Hel' & Hlen & _)%normalize_Normal Hel Hshort.
  rewrite Hel in Hel'. injection Hel' as <- <-.
  apply Exists_exists in Hshort as (el & Hin & Hlt).
  rewrite Forall_forall in Hlen. specialize (Hlen el Hin). lia.
Qed.

Lemma normalize_short_element locationName recs block first rest :
  Cwa.weatherElement block = first :: rest →
  Exists (λ el, (length (Cwa.time el) < length (Cwa.time first))%nat) rest →
  normalize locationName recs block = Throw (TypeError "undefined" "parameter").
Proof.
  intros Hel Hshort.
  destruct (normalize locationName recs block) as [wd|e] eqn:Hn.
  - by destruct (normalize_Normal_no_short _ _ _ _ _ _ Hn Hel).
  - apply normalize_Throw_inv in Hn as [[Hnil _]|(? & ? & _ & _ & ->)];
      [congruence|done].
Qed.

(** X1.  The normalizer throws in two cases only, each with a TypeError of
    its own: the block has no element (the read of [weatherElements[0].time]
    fails), or some element after the first has fewer slots than the first
    (the read of [element.time[i].parameter] fails), whatever that
    element's name.  An element with more slots than the first is no
    error. *)
Theorem normalize_throws locationName recs block e :
  normalize locationName recs block = Throw e ↔
  (Cwa.weatherElement block = [] ∧ e = TypeError "undefined" "time") ∨
  (∃ first rest,
     Cwa.weatherElement block = first :: rest ∧
     Exists (λ el, (length (Cwa.time el) < length (Cwa.time first))%nat) rest ∧
     e = TypeError "undefined" "parameter").
Proof.
  split; [apply normalize_Throw_inv|].
  intros [[Hnil ->]|(first & rest & Hel & Hshort & ->)].
  - unfold normalize. by rewrite Hnil.
  - by eapply normalize_short_element.
Qed.

(** ** The route on a payload that has the block *)

Lemma getWeatherByLocation_found env locationName data block :
  is_set (CWA_API_KEY env) = true →
  upstream env (forecast_request env locationName) = Normal data →
  List.find (λ loc, String.eqb (Cwa.locationName loc) locationName)
            (Cwa.location (Cwa.records data)) = Some block →
  getWeatherByLocation env locationName =
    mkIo [EvHttpGet (forecast_request env locationName)]
         (normalize locationName (Cwa.records data) block).
Proof.
  intros Hkey Hup Hfind. unfold getWeatherByLocation. rewrite Hkey. simpl.
  unfold mbind, Io_bind, axios_get. simpl.
  fold (forecast_request env locationName). rewrite Hup. simpl.
  rewrite Hfind. simpl. by destruct (normalize _ _ _).
Qed.

(** X2.  One element with fewer slots than the first fails the whole
    request: after its one outbound call the route logs the TypeError and
    answers 500 with the generic body.  No record of the slots that could
    be read is sent. *)
Theorem short_element_fails_request env locationName data block first rest :
  is_set (CWA_API_KEY env) = true →
  upstream env (forecast_request env locationName) = Normal data →
  List.find (λ loc, String.eqb (Cwa.locationName loc) locationName)
            (Cwa.location (Cwa.records data)) = Some block →
  Cwa.weatherElement block = first :: rest →
  Exists (λ el, (length (Cwa.time el) < length (Cwa.time first))%nat) rest →
  handleWeatherRequest env locationName =
    mkIo [EvHttpGet (forecast_request env locationName);
          EvConsoleError ["取得 " +:+ locationName +:+ " 天氣資料失敗:";
                          message (TypeError "undefined" "parameter")]]
         (Normal {| statusCode := 500;
                    body := ErrorBody "伺服器錯誤"
                              ("無法取得 " +:+ locationName
                               +:+ " 天氣資料，請稍後再試") |}).
Proof.
  intros Hkey Hup Hfind Hel Hshort.
  assert (normalize locationName (Cwa.records data) block
          = Throw (TypeError "undefined" "parameter")) as Hn.
  { by eapply normalize_short_element. }
  unfold handleWeatherRequest.
  by rewrite (getWeatherByLocation_found _ _ _ _ Hkey Hup Hfind), Hn.
Qed.

Lemma short_element_fails_request_witness :
  handleWeatherRequest (Edge.env_of [Sample.Wx; Sample.PoP; Edge.WS_short]) "新竹縣" =
    mkIo [EvHttpGet (forecast_request
                       (Edge.env_of [Sample.Wx; Sample.PoP; Edge.WS_short]) "新竹縣");
          EvConsoleError ["取得 " +:+ "新竹縣" +:+ " 天氣資料失敗:";
                          message (TypeError "undefined" "parameter")]]
         (Normal {| statusCode := 500;
                    body := ErrorBody "伺服器錯誤"
                              ("無法取得 " +:+ "新竹縣" +:+ " 天氣資料，請稍後再試") |}).
Proof.
  apply (short_element_fails_request
           (Edge.env_of [Sample.Wx; Sample.PoP; Edge.WS_short]) "新竹縣"
           {| Cwa.records :=
                {| Cwa.datasetDescription := "三十六小時天氣預報";
                   Cwa.issueTime := "2026-11-02 05:00:00";
                   Cwa.location :=
                     [Edge.block_of [Sample.Wx; Sample.PoP; Edge.WS_short]] |} |}
           (Edge.block_of [Sample.Wx; Sample.PoP; Edge.WS_short])
           Sample.Wx [Sample.PoP; Edge.WS_short]);
    [reflexivity | reflexivity | reflexivity | reflexivity |].
  apply Exists_cons_tl, Exists_cons_hd. simpl. lia.
Defined.

(** X5.  The success path of a weather route.  When the key is set, the
    upstream answers, the payload has a block for the city, and no element
    of the block has fewer slots than the first, the route makes its one
    outbound call and answers 200 with [{success: true, data}]: [data]
    carries the requested name as [city], the payload's description and
    issue time, and one record per slot of the first element (slots that
    other elements have beyond that count are not read). *)
Theorem weather_route_success env locationName data block first rest :
  is_set (CWA_API_KEY env) = true →
  upstream env (forecast_request env locationName) = Normal data →
  List.find (λ loc, String.eqb (Cwa.locationName loc) locationName)
            (Cwa.location (Cwa.records data)) = Some block →
  Cwa.weatherElement block = first :: rest →
  Forall (λ el, (length (Cwa.time first) ≤ length (Cwa.time el))%nat) rest →
  ∃ wd,
    handleWeatherRequest env locationName =
      mkIo [EvHttpGet (forecast_request env locationName)]
           (Normal {| statusCode := 200; body := WeatherBody true wd |}) ∧
    city wd = locationName ∧
    datasetDescription wd = Cwa.datasetDescription (Cwa.records data) ∧
    dataUpdateTime wd = Cwa.issueTime (Cwa.records data) ∧
    length (forecasts wd) = length (Cwa.time first).
Proof.
  intros Hkey Hup Hfind Hel Hlen.
  destruct (normalize locationName (Cwa.records data) block) as [wd|e] eqn:Hn.
  - exists wd.
    pose proof Hn as (first' & rest' & Hel' & _ & Hc & Hd & Hu & Hcount & _)%normalize_Normal.
    rewrite Hel in Hel'. injection Hel' as <- <-.
    split_and!; try done. unfold handleWeatherRequest.
    by rewrite (getWeatherByLocation_found _ _ _ _ Hkey Hup Hfind), Hn.
  - exfalso. apply normalize_Throw_inv in Hn
      as [[Hnil _]|(first' & rest' & Hel' & Hshort & _)]; [congruence|].
    rewrite Hel in Hel'. injection Hel' as <- <-.
    apply Exists_exists in Hshort as (el & Hin & Hlt).
    rewrite Forall_forall in Hlen. specialize (Hlen el Hin). lia.
Qed.

Lemma weather_route_success_witness :
  ∃ wd,
    handleWeatherRequest Sample.env "新竹縣" =
      mkIo [EvHttpGet (forecast_request Sample.env "新竹縣")]
           (Normal {| statusCode := 200; body := WeatherBody true wd |}) ∧
    city wd = "新竹縣" ∧
    datasetDescription wd = Cwa.datasetDescription (Cwa.records Sample.payload) ∧
    dataUpdateTime wd = Cwa.issueTime (Cwa.records Sample.payload) ∧
    length (forecasts wd) = length (Cwa.time Sample.Wx).
Proof.
  apply (weather_route_success Sample.env "新竹縣" Sample.payload Sample.block
           Sample.Wx [Sample.PoP; Sample.MinT; Sample.CI; Sample.MaxT]);
    [reflexivity | reflexivity | reflexivity | reflexivity |].
  repeat constructor.
Defined.

(** ** Fields no element writes, and elements no case reads *)

(** X3.  In every record of every successful normalization [windSpeed] is
    the empty string, and a kind that no element of the block carries
    leaves its field the empty string: without a PoP element [rain] is ""
    and has no "%", without MinT or MaxT the temperatures have no "°C". *)
Theorem absent_kind_leaves_field_empty locationName recs block wd i f :
  normalize locationName recs block = Normal wd →
  forecasts wd !! i = Some f →
  windSpeed f = "" ∧
  (last_named "Wx" (Cwa.weatherElement block) = None → weather f = "") ∧
  (last_named "PoP" (Cwa.weatherElement block) = None → rain f = "") ∧
  (last_named "MinT" (Cwa.weatherElement block) = None → minTemp f = "") ∧
  (last_named "MaxT" (Cwa.weatherElement block) = None → maxTemp f = "") ∧
  (last_named "CI" (Cwa.weatherElement block) = None → comfort f = "").
Proof.
  intros (first & rest & Hel & _ & _ & _ & _ & Hn & Hrec)%normalize_Normal Hf.
  assert (Hi : (i < length (Cwa.time first))%nat).
  { rewrite <- Hn. by eapply lookup_lt_Some. }
  destruct (lookup_lt_is_Some_2 _ _ Hi) as [slot0 Hslot0].
  rewrite (Hrec _ _ Hslot0) in Hf. injection Hf as <-. rewrite Hel.
  split_and!.
  - apply merged_seed_windSpeed.
  - intros H. by rewrite (merged_field weather "Wx" _ switch_weather), H.
  - intros H. by rewrite (merged_field rain "PoP" _ switch_rain), H.
  - intros H. by rewrite (merged_field minTemp "MinT" _ switch_minTemp), H.
  - intros H. by rewrite (merged_field maxTemp "MaxT" _ switch_maxTemp), H.
  - intros H. by rewrite (merged_field comfort "CI" _ switch_comfort), H.
Qed.

Lemma absent_kind_leaves_field_empty_witness :
  windSpeed Edge.dry_record = "" ∧
  (last_named "Wx" [Sample.Wx; Sample.MinT; Sample.MaxT] = None →
   weather Edge.dry_record = "") ∧
  (last_named "PoP" [Sample.Wx; Sample.MinT; Sample.MaxT] = None →
   rain Edge.dry_record = "") ∧
  (last_named "MinT" [Sample.Wx; Sample.MinT; Sample.MaxT] = None →
   minTemp Edge.dry_record = "") ∧
  (last_named "MaxT" [Sample.Wx; Sample.MinT; Sample.MaxT] = None →
   maxTemp Edge.dry_record = "") ∧
  (last_named "CI" [Sample.Wx; Sample.MinT; Sample.MaxT] = None →
   comfort Edge.dry_record = "").
Proof.
  apply (absent_kind_leaves_field_empty "新竹縣" Sample.recs
           (Edge.block_of [Sample.Wx; Sample.MinT; Sample.MaxT])
           Edge.dry_data 1%nat Edge.dry_record);
    reflexivity.
Defined.

Lemma switch_unrecognized name value f :
  recognized name = false → switch_elementName name value f = f.
Proof.
  unfold recognized, switch_elementName. intros H.
  repeat (apply orb_false_elim in H as [H ?]).
  by repeat match goal with Heq : String.eqb _ _ = false |- _ => rewrite Heq; clear Heq end.
Qed.

Lemma merged_filter_recognized i elements f :
  merged i (List.filter (λ e, recognized (Cwa.elementName e)) elements) f =
  merged i elements f.
Proof.
  revert f. induction elements as [|e elements IH]; intros f; [done|].
  simpl. destruct (recognized (Cwa.elementName e)) eqn:He.
  - by rewrite !merged_cons, IH.
  - by rewrite IH, merged_cons, switch_unrecognized.
Qed.

(** X4.  Elements of a kind the [switch] has no case for are ignored:
    dropping such elements from behind the first element of a block that
    normalizes leaves the result as it is.  (The first element stays: its
    slots give the count and the times.) *)
Theorem unrecognized_elements_ignored locationName recs block first rest wd :
  Cwa.weatherElement block = first :: rest →
  normalize locationName recs block = Normal wd →
  normalize locationName recs
    {| Cwa.locationName := Cwa.locationName block;
       Cwa.weatherElement :=
         first :: List.filter (λ e, recognized (Cwa.elementName e)) rest |}
  = Normal wd.
Proof.
  intros Hel (first' & rest' & Hel' & Hlen & Hc & Hd & Hu & Hn & Hrec)%normalize_Normal.
  rewrite Hel in Hel'. injection Hel' as <- <-.
  apply normalize_Normal.
  exists first, (List.filter (λ e, recognized (Cwa.elementName e)) rest).
  split_and!; try done.
  - apply Forall_forall. intros e [He _]%list_elem_of_In%filter_In.
    rewrite Forall_forall in Hlen. by apply Hlen, list_elem_of_In.
  - intros i slot Hslot. rewrite (Hrec _ _ Hslot). f_equal.
    by rewrite !merged_cons, merged_filter_recognized.
Qed.

Lemma unrecognized_elements_ignored_witness :
  normalize "新竹縣" Sample.recs
    {| Cwa.locationName :=
         Cwa.locationName (Edge.block_of [Sample.Wx; Edge.WS; Sample.MinT; Sample.MaxT]);
       Cwa.weatherElement :=
         Sample.Wx :: List.filter (λ e, recognized (Cwa.elementName e))
                        [Edge.WS; Sample.MinT; Sample.MaxT] |}
  = Normal Edge.dry_data.
Proof.
  apply (unrecognized_elements_ignored "新竹縣" Sample.recs
           (Edge.block_of [Sample.Wx; Edge.WS; Sample.MinT; Sample.MaxT])
           Sample.Wx [Edge.WS; Sample.MinT; Sample.MaxT] Edge.dry_data);
    reflexivity.
Defined.

(** ** What a weather request does, on every path *)

Lemma getWeatherByLocation_trace env locationName :
  trace (getWeatherByLocation env locationName) =
    if is_set (CWA_API_KEY env) then [EvHttpGet (forecast_request env locationName)]
    else [].
Proof.
  unfold getWeatherByLocation. destruct (is_set (CWA_API_KEY env)); [|done].
  simpl. unfold mbind, Io_bind, axios_get. simpl.
  fold (forecast_request env locationName).
  destruct (upstream env (forecast_request env locationName)) as [data|e]; [|done].
  simpl. by destruct (List.find _ _).
Qed.

Lemma on_error_trace locationName error :
  trace (on_error locationName error) =
    [EvConsoleError ["取得 " +:+ locationName +:+ " 天氣資料失敗:"; message error]].
Proof.
  unfold on_error, mbind, Io_bind. simpl.
  destruct (Js.includes _ _); [done|].
  destruct (response error) as [resp|]; [|done].
  unfold upstream_reply, mbind, Io_bind. simpl. by destruct (data resp).
Qed.

(** X6.  A weather request makes at most one outbound call and never a
    second one: the call is made exactly when the key is set, whatever the
    upstream then answers.  A console line is written exactly when the
    client throws, and it carries the thrown message. *)
Theorem request_trace env locationName :
  trace (handleWeatherRequest env locationName) =
    (if is_set (CWA_API_KEY env)
     then [EvHttpGet (forecast_request env locationName)] else [])
    ++ match result (getWeatherByLocation env locationName) with
       | Normal _ => []
       | Throw error =>
           [EvConsoleError ["取得 " +:+ locationName +:+ " 天氣資料失敗:";
                            message error]]
       end.
Proof.
  unfold handleWeatherRequest.
  destruct (result (getWeatherByLocation env locationName)) as [wd|error];
    cbn [trace]; rewrite getWeatherByLocation_trace.
  - by rewrite app_nil_r.
  - by rewrite on_error_trace.
Qed.

(** X7.  The handler leaves a request unanswered in one case only: the
    client threw an error that carries a response whose body is [null] (and
    whose message has no "CWA_API_KEY"); the [catch] block then throws in
    turn.  On every other path a response is written. *)
Theorem handler_rejects_only_on_null_body env locationName e :
  result (handleWeatherRequest env locationName) = Throw e ↔
  ∃ error resp,
    result (getWeatherByLocation env locationName) = Throw error ∧
    Js.includes "CWA_API_KEY" (message error) = false ∧
    response error = Some resp ∧
    data resp = JNull ∧
    e = TypeError "null" "message".
Proof.
  unfold handleWeatherRequest.
  destruct (result (getWeatherByLocation env locationName)) as [wd|error];
    cbn [result].
  { split; [done|]. by intros (? & ? & ? & _). }
  rewrite on_error_result. split.
  - destruct (Js.includes _ _) eqn:Hinc; [done|].
    destruct (response error) as [resp|] eqn:Hresp; [|done].
    rewrite upstream_reply_result.
    destruct (data resp) eqn:Hdata; try done.
    intros [= <-]. by exists error, resp.
  - intros (error' & resp & [= <-] & -> & -> & Hdata & ->).
    by rewrite upstream_reply_result, Hdata.
Qed.

Lemma or_else_is_truthy a :
  truthy (Some (or_else a "無法取得天氣資料")) = true.
Proof.
  unfold or_else. destruct a as [v|]; [|done].
  by destruct (truthy (Some v)) eqn:Hv.
Qed.

(** X8.  Whenever the upstream branch writes a response, its status is the
    upstream's, [details] is the upstream body as it came, and [message] is
    [B.message] itself when that value is truthy, of whatever type, and the
    fallback text otherwise; so [message] is never a falsy value: never
    absent, [null], [false], zero or the empty string. *)
Theorem upstream_message_never_falsy resp r :
  result (upstream_reply resp) = Normal r →
  statusCode r = status resp ∧
  ∃ msg,
    body r = UpstreamErrorBody "CWA API 錯誤" msg (data resp) ∧
    truthy (Some msg) = true ∧
    (∀ v, message_property (data resp) = Some v → truthy (Some v) = true → msg = v) ∧
    (truthy (message_property (data resp)) = false → msg = JStr "無法取得天氣資料").
Proof.
  rewrite upstream_reply_result. intros H.
  assert (r = {| statusCode := status resp;
                 body := UpstreamErrorBody "CWA API 錯誤"
                           (or_else (message_property (data resp)) "無法取得天氣資料")
                           (data resp) |}) as ->.
  { destruct (data resp); [done|by injection H..]. }
  split; [done|]. eexists. split_and!; [done|apply or_else_is_truthy| |].
  - intros v -> Hv. by apply or_else_truthy.
  - apply or_else_falsy.
Qed.

Lemma upstream_message_never_falsy_witness :
  statusCode {| statusCode := 429;
                body := UpstreamErrorBody "CWA API 錯誤" (JNum 42)
                          (JObj [("message", JNum 42)]) |}
    = status {| status := 429; data := JObj [("message", JNum 42)] |} ∧
  ∃ msg,
    body {| statusCode := 429;
            body := UpstreamErrorBody "CWA API 錯誤" (JNum 42)
                      (JObj [("message", JNum 42)]) |}
      = UpstreamErrorBody "CWA API 錯誤" msg
          (data {| status := 429; data := JObj [("message", JNum 42)] |}) ∧
    truthy (Some msg) = true ∧
    (∀ v, message_property (data {| status := 429;
                                    data := JObj [("message", JNum 42)] |}) = Some v →
          truthy (Some v) = true → msg = v) ∧
    (truthy (message_property (data {| status := 429;
                                       data := JObj [("message", JNum 42)] |})) = false →
     msg = JStr "無法取得天氣資料").
Proof.
  apply (upstream_message_never_falsy
           {| status := 429; data := JObj [("message", JNum 42)] |}
           {| statusCode := 429;
              body := UpstreamErrorBody "CWA API 錯誤" (JNum 42)
                        (JObj [("message", JNum 42)]) |}).
  reflexivity.
Defined.

(** A truthy [message] that is not a string is passed on as it is. *)
Example upstream_message_number :
  result (upstream_reply {| status := 429;
                            data := JObj [("message", JNum 42)] |}) =
  Normal {| statusCode := 429;
            body := UpstreamErrorBody "CWA API 錯誤" (JNum 42)
                      (JObj [("message", JNum 42)]) |}.
Proof. reflexivity. Qed.

(** ** The discovery document and the route table *)

Lemma endpoints_of_other cities k :
  k ∉ cities →
  endpoints_of cities !! k = if decide (k = "health") then Some "/api/health" else None.
Proof.
  intros Hnot. unfold endpoints_of.
  rewrite (endpoints_fold_other {["health" := "/api/health"]} cities k Hnot).
  destruct (decide (k = "health")) as [->|Hne].
  - by rewrite lookup_singleton_eq.
  - by rewrite lookup_singleton_ne.
Qed.

(** X9.  The own properties of the [endpoints] object of the discovery
    document, for any list of city names written in ASCII characters and
    CJK ideographs, none of them "__proto__" (a write to that key creates no
    property): under a listed city the object holds that city's weather
    path, under [health] the health path unless a city is itself named
    "health" (the city's write then replaces it), and nothing else. *)
Theorem endpoints_lookup cities k :
  Forall (λ city, plain_text city = true) cities →
  "__proto__" ∉ cities →
  endpoints_of cities !! k =
    if decide (k ∈ cities) then Some (weather_path k)
    else if decide (k = "health") then Some "/api/health"
    else None.
Proof.
  intros _ _. destruct (decide (k ∈ cities)) as [Hin|Hnot].
  - by apply endpoints_of_city.
  - by apply endpoints_of_other.
Qed.

Lemma endpoints_lookup_witness :
  endpoints_of ["新竹縣"; "health"] !! "health" =
    if decide ("health" ∈ ["新竹縣"; "health"]) then Some (weather_path "health")
    else if decide ("health" = "health") then Some "/api/health"
    else None.
Proof.
  apply (endpoints_lookup ["新竹縣"; "health"] "health").
  - repeat constructor.
  - intros H. repeat (apply elem_of_cons in H as [H|H]; [discriminate H|]).
    by apply elem_of_nil in H.
Defined.

(** A city named "health" takes the place of the health entry. *)
Example endpoints_health_city :
  endpoints_of ["新竹縣"; "health"] !! "health" = Some "/api/weather/health".
Proof. by rewrite (endpoints_of_city ["新竹縣"; "health"] "health") by set_solver. Qed.

Example configured_names_plain :
  forallb plain_text TAIWAN_CITIES = true ∧ plain_text "Érd" = false.
Proof. by vm_compute. Qed.

Lemma health_not_a_city : "health" ∉ TAIWAN_CITIES.
Proof.
  unfold TAIWAN_CITIES. intros H.
  repeat (apply elem_of_cons in H as [?|H]; [done|]).
  by apply elem_of_nil in H.
Qed.

(** X10.  The discovery document lists exactly the registered paths other
    than [/] itself: every path it gives is the pattern of a route, and the
    health route and the four weather routes are all listed. *)
Theorem discovery_lists_registered_paths p :
  (∃ k, endpoints_of TAIWAN_CITIES !! k = Some p) ↔
  (∃ h, (p, h) ∈ routes ∧ h ≠ RootHandler).
Proof.
  split.
  - intros [k Hk].
    destruct (decide (k ∈ TAIWAN_CITIES)) as [Hin|Hnot].
    + rewrite (endpoints_of_city _ _ Hin) in Hk.
      injection Hk as <-. exists (WeatherHandler k).
      split; [by apply route_registered|done].
    + rewrite (endpoints_of_other _ _ Hnot) in Hk.
      destruct (decide (k = "health")); [|done]. injection Hk as <-.
      exists HealthHandler. split; [|done].
      unfold routes. apply elem_of_cons. right. by left.
  - intros (h & Hin & Hh). unfold routes in Hin.
    apply elem_of_app in Hin as [Hin|Hin].
    + apply elem_of_cons in Hin as [[= -> ->]|Hin]; [done|].
      apply list_elem_of_singleton in Hin as [= -> ->].
      exists "health". by rewrite (endpoints_of_other _ _ health_not_a_city).
    + unfold weather_routes in Hin.
      apply list_elem_of_fmap in Hin as (city & [= -> ->] & Hcity).
      exists city. by apply endpoints_of_city.
Qed.

(** ** The health timestamp *)

Lemma padded_length w n rest :
  String.length (JsDate.padded w n rest) = (w + String.length rest)%nat.
Proof.
  revert n rest. induction w as [|w IH]; intros n rest; [done|].
  cbn [JsDate.padded]. rewrite IH. simpl. lia.
Qed.

Lemma YearFromTime_four_digits t :
  -62167219200000 ≤ t ≤ 253402300799999 → 0 ≤ JsDate.YearFromTime t ≤ 9999.
Proof.
  intros Ht. unfold JsDate.YearFromTime.
  pose proof (JsDateFacts.YearFromDay_spec (JsDate.Day t)) as [Hlo Hhi].
  assert (Hd : -719528 ≤ JsDate.Day t ≤ 2932896).
  { unfold JsDate.Day, JsDate.msPerDay. Z.div_mod_to_equations. lia. }
  revert Hlo Hhi. generalize (JsDate.YearFromDay (JsDate.Day t)). intros y.
  unfold JsDate.DayFromYear. intros Hlo Hhi. Z.div_mod_to_equations. lia.
Qed.

(** X12.  While the clock is within the years 0000 to 9999, the timestamp
    of the health reply has the fixed width of 24 characters (the
    four-digit form [YYYY-MM-DDTHH:mm:ss.sssZ], never the signed six-digit
    year). *)
Theorem health_timestamp_width env :
  -62167219200000 ≤ now env ≤ 253402300799999 →
  ∃ ts,
    health_handler env =
      mkIo [] (Normal {| statusCode := 200; body := HealthBody "OK" ts |}) ∧
    String.length ts = 24%nat.
Proof.
  intros Hnow. exists (JsDate.toISOString (now env)). split; [done|].
  pose proof (YearFromTime_four_digits _ Hnow) as Hy.
  unfold JsDate.toISOString, JsDate.format, JsDate.year_string.
  rewrite (proj2 (andb_true_iff _ _)) by (split; apply Z.leb_le; lia).
  repeat (rewrite padded_length; cbn [String.length]). done.
Qed.

Lemma health_timestamp_width_witness :
  ∃ ts,
    health_handler Sample.env =
      mkIo [] (Normal {| statusCode := 200; body := HealthBody "OK" ts |}) ∧
    String.length ts = 24%nat.
Proof.
  apply (health_timestamp_width Sample.env). vm_compute. split; discriminate.
Defined.

(** ** Data is sent only on success *)

(** X14.  A weather route sends a [{success, data}] body exactly when the
    client returned normally, and [data] is then the client's result as it
    is: no reply to a failure carries forecast data. *)
Theorem data_sent_iff_client_succeeds env locationName wd :
  (∃ code success,
     result (handleWeatherRequest env locationName) =
       Normal {| statusCode := code; body := WeatherBody success wd |}) ↔
  result (getWeatherByLocation env locationName) = Normal wd.
Proof.
  unfold handleWeatherRequest.
  destruct (result (getWeatherByLocation env locationName)) as [wd'|error];
    cbn [result].
  - split.
    + by intros (code & success & [= _ _ <-]).
    + intros [= <-]. by exists 200, true.
  - split; [|done]. intros (code & success & H). exfalso. revert H.
    rewrite on_error_result.
    destruct (Js.includes _ _); [done|].
    destruct (response error) as [resp|]; [|done].
    rewrite upstream_reply_result. by destruct (data resp).
Qed.
